(** * debug-listener: the connection worker and the render loop of main.go

    A shallow embedding of [handleConnection] and of [model.Update]
    (src/main.go), with the properties of the line protocol and of the
    transcript proved about them.

    Go strings are byte sequences: they are modelled by [string], whose
    characters are the 256 byte values. *)

From Stdlib Require Import ZArith List Bool Ascii String Lia.
Import ListNotations.

Open Scope string_scope.
Open Scope Z_scope.

(** ** Go built-ins and the [strings] package, as main.go uses them *)

Module Go.

(** [len(s)]: the number of bytes of [s]. *)
Definition len (s : string) : Z := Z.of_nat (String.length s).

(** Go's [int] is 64 bits wide on the platforms the program is built
    for; arithmetic wraps around in two's complement. *)
Definition int_wrap (z : Z) : Z := (z + 2 ^ 63) mod 2 ^ 64 - 2 ^ 63.
Definition int_add (a b : Z) : Z := int_wrap (a + b).
Definition int_sub (a b : Z) : Z := int_wrap (a - b).

Fixpoint take (n : nat) (s : string) : string :=
  match n, s with
  | S n', String c s' => String c (take n' s')
  | _, _ => ""
  end.

Fixpoint drop (n : nat) (s : string) : string :=
  match n, s with
  | S n', String _ s' => drop n' s'
  | _, _ => s
  end.

(** The slice expression [s[lo:hi]]; [None] is the run-time panic Go
    raises when the bounds are out of range. *)
Definition slice (s : string) (lo hi : Z) : option string :=
  if (0 <=? lo) && (lo <=? hi) && (hi <=? len s)
  then Some (take (Z.to_nat (hi - lo)) (drop (Z.to_nat lo) s))
  else None.

(** [strings.HasPrefix]. *)
Definition HasPrefix (s pre : string) : bool := String.prefix pre s.

(** [strings.Index(s, substr)]: the byte offset of the first occurrence
    of [substr] in [s], or -1. *)
Fixpoint Index (s substr : string) : Z :=
  if String.prefix substr s then 0
  else match s with
       | "" => -1
       | String _ s' =>
           let i := Index s' substr in
           if i =? -1 then -1 else i + 1
       end.

(** [unicode.IsSpace] on the UTF-8 encoding of a rune.  The white space
    runes are U+0009..U+000D, U+0020, U+0085, U+00A0, U+1680,
    U+2000..U+200A, U+2028, U+2029, U+202F, U+205F and U+3000; they are
    encoded on one, two or three bytes. *)
Definition isSpace1 (a : ascii) : bool :=
  let a := N_of_ascii a in
  ((9 <=? a) && (a <=? 13) || (a =? 32))%N.

Definition isSpace2 (a b : ascii) : bool :=
  let a := N_of_ascii a in
  let b := N_of_ascii b in
  ((a =? 194) && ((b =? 133) || (b =? 160)))%N.

Definition isSpace3 (a b c : ascii) : bool :=
  let a := N_of_ascii a in
  let b := N_of_ascii b in
  let c := N_of_ascii c in
  ((a =? 225) && (b =? 154) && (c =? 128)
   || (a =? 226) && (b =? 128)
      && ((128 <=? c) && (c <=? 138) || (c =? 168) || (c =? 169) || (c =? 175))
   || (a =? 226) && (b =? 129) && (c =? 159)
   || (a =? 227) && (b =? 128) && (c =? 128))%N.

(** Removal of the white space runes at the front of a byte sequence.
    [p2] and [p3] recognise the two- and three-byte encodings in the
    order in which the bytes are met, so that the same function serves
    for the front of a string and, on the reversed bytes, for its end. *)
Fixpoint dropSpace (p2 : ascii -> ascii -> bool)
    (p3 : ascii -> ascii -> ascii -> bool) (l : list ascii) : list ascii :=
  match l with
  | [] => []
  | a :: l1 =>
      if isSpace1 a then dropSpace p2 p3 l1
      else match l1 with
           | [] => l
           | b :: l2 =>
               if p2 a b then dropSpace p2 p3 l2
               else match l2 with
                    | [] => l
                    | c :: l3 => if p3 a b c then dropSpace p2 p3 l3 else l
                    end
           end
  end.

(** [strings.TrimLeftFunc(s, unicode.IsSpace)] on the bytes of [s]. *)
Definition trimLeftSpace (l : list ascii) : list ascii :=
  dropSpace isSpace2 isSpace3 l.

(** [strings.TrimRightFunc(s, unicode.IsSpace)]: runes are decoded from
    the end, that is, from the front of the reversed bytes. *)
Definition trimRightSpace (l : list ascii) : list ascii :=
  rev (dropSpace (fun b a => isSpace2 a b) (fun c b a => isSpace3 a b c) (rev l)).

(** [strings.TrimSpace]. *)
Definition TrimSpace (s : string) : string :=
  string_of_list_ascii (trimRightSpace (trimLeftSpace (list_ascii_of_string s))).

(** [strings.TrimLeft(s, " ")], the only cutset main.go uses. *)
Fixpoint TrimLeft_space (s : string) : string :=
  match s with
  | String c s' => if Ascii.eqb c " " then TrimLeft_space s' else s
  | "" => ""
  end.

(** [bufio.Reader.ReadBytes(delim)] on a reader whose remaining input is
    [r], the bytes that arrive before the stream ends or fails.  The
    result is the buffer read, whether an error is returned, and the
    input left.  As in Go the error is returned exactly when the buffer
    does not end in [delim], and the bytes read before the error are
    returned with it. *)
Fixpoint ReadBytes (delim : ascii) (r : string) : string * bool * string :=
  match r with
  | "" => ("", true, "")
  | String c r' =>
      if Ascii.eqb c delim then (String c "", false, r')
      else let '(buffer, err, rest) := ReadBytes delim r' in
           (String c buffer, err, rest)
  end.

End Go.

(** ** The connection worker *)

Record remoteMessage : Type := { name : string; message : string }.

(** What a worker does that others can observe: an event handed to the
    program with [p.Send], the connection closed, or a run-time panic. *)
Inductive event : Type :=
| Send (m : remoteMessage)
| Close
| Panic.

Definition newline : ascii := "010"%char.
Definition marker : string := "::name::".

(** Lines 81-85 of main.go, the treatment of one line [str] under the
    identity [name]: the new identity and the message sent, if any. *)
Definition handleLine (name str : string)
  : option (string * option remoteMessage) :=
  let index := Go.Index str marker in
  if negb (index =? -1) then
    match Go.slice str (index + 8) (Go.len str) with
    | Some rest => Some (Go.TrimSpace rest ++ ": ", None)
    | None => None
    end
  else Some (name, Some {| name := name; message := str |}).

(** The [for] loop of [handleConnection], lines 72-86.  [reader] is the
    input left on the connection and [name] the worker's local variable.
    The loop has no bound of its own: [fuel] bounds the iterations
    and [None] says that it was used up. *)
Fixpoint handleConnection_loop (fuel : nat) (reader name : string)
  : option (list event) :=
  match fuel with
  | O => None
  | S fuel' =>
      let '(buffer, err, reader') := Go.ReadBytes newline reader in
      if err then Some [Close]
      else
        match Go.slice buffer 0 (Go.len buffer - 1) with
        | None => Some [Panic]
        | Some str =>
            match handleLine name str with
            | None => Some [Panic]
            | Some (name', None) => handleConnection_loop fuel' reader' name'
            | Some (name', Some m) =>
                option_map (cons (Send m))
                           (handleConnection_loop fuel' reader' name')
            end
        end
  end.

(** [handleConnection(conn, p)], lines 68-87.  Every iteration that does
    not return consumes at least one byte of [conn], so one more
    iteration than [conn] has bytes is enough (see
    [handleConnection_loop_fuel]). *)
Definition handleConnection (conn : string) : option (list event) :=
  handleConnection_loop (S (String.length conn)) conn "".

(** ** The render loop *)

(** Modelled from the spec: the viewport widget
    (github.com/charmbracelet/bubbles/viewport) is an external
    collaborator whose source is not part of the repository.  Its state
    is given by the fields main.go reads and writes ([Width], [Height],
    [YPosition], [HighPerformanceRendering]) and by the text it shows.
    The spec's data model says that the geometry is "mutated by
    size-change notifications and scroll input only": [SetContent]
    replaces the text shown and leaves the rest as it is. *)
Record viewport_Model : Type := {
  Width : Z;
  Height : Z;
  YPosition : Z;
  HighPerformanceRendering : bool;
  shown : string
}.

Definition viewport_zero : viewport_Model :=
  {| Width := 0; Height := 0; YPosition := 0;
     HighPerformanceRendering := false; shown := "" |}.

Definition viewport_New (width height : Z) : viewport_Model :=
  {| Width := width; Height := height; YPosition := 0;
     HighPerformanceRendering := false; shown := "" |}.

Definition SetContent (v : viewport_Model) (s : string) : viewport_Model :=
  {| Width := Width v; Height := Height v; YPosition := YPosition v;
     HighPerformanceRendering := HighPerformanceRendering v; shown := s |}.

Record model : Type := {
  content : string;
  ready : bool;
  viewport : viewport_Model
}.

(** The messages [Update] distinguishes.  [KeyMsg key] carries the
    result of [msg.String()]; [OtherMsg] is any message of another type
    (mouse input and the like). *)
Inductive Msg : Type :=
| KeyMsg (key : string)
| WindowSizeMsg (width height : Z)
| RemoteMessage (r : remoteMessage)
| OtherMsg.

#[local] Set Warnings "-register-all".
Inductive Cmd : Type :=
| CmdNil
| Quit
| Batch (cmds : list Cmd).

(** The third-party routines [Update] calls: lipgloss ([boldStyle.Render]
    and the heights of the rendered header and footer), reflow
    ([wordwrap.String], [indent.String], [wrap.String]) and the viewport's
    own [Update] and [Sync].  Their sources are not in the repository;
    the render loop is stated for any implementation of them. *)
Class Terminal : Type := {
  boldStyle_Render : string -> string;
  wordwrap_String : string -> Z -> string;
  indent_String : string -> Z -> string;
  wrap_String : string -> Z -> string;
  headerView_Height : viewport_Model -> Z;
  footerView_Height : viewport_Model -> Z;
  viewport_Update : viewport_Model -> Msg -> viewport_Model * Cmd;
  viewport_Sync : viewport_Model -> Cmd
}.

Definition useHighPerformanceRenderer : bool := false.

Definition initialModel : model :=
  {| content := ""; ready := false; viewport := viewport_zero |}.

(** The limit handed to [wordwrap.String] on line 178 and the limit
    handed to [wrap.String] on line 181, for a viewport [width] columns
    wide and the identity [identity]. *)
Definition wordwrapLimit (width : Z) (identity : string) : Z :=
  Go.int_sub width (Go.int_add 4 (Go.len identity)).

Definition wrapLimit (width : Z) : Z := width.

Section RenderLoop.

Context {T : Terminal}.

(** Lines 174-181: the block appended to the transcript for a message
    with a non-empty text. *)
Definition formatBlock (identity text : string) (width : Z) : string :=
  let output := text in
  let output :=
    if 0 <? Go.len identity then boldStyle_Render identity ++ text
    else output in
  let output := wordwrap_String output (wordwrapLimit width identity) in
  let output := indent_String (" " ++ output) 4 in
  let output := Go.TrimLeft_space output in
  wrap_String (output ++ String newline "") (wrapLimit width).

(** Lines 187-191: what is left to the viewport. *)
Definition delegate (m : model) (msg : Msg) (cmds : list Cmd) : model * Cmd :=
  let '(v, cmd) := viewport_Update (viewport m) msg in
  ({| content := content m; ready := ready m; viewport := v |},
   Batch (cmds ++ [cmd])).

(** [model.Update], lines 114-192. *)
Definition Update (m : model) (msg : Msg) : model * Cmd :=
  match msg with
  | KeyMsg key =>
      if String.eqb key "ctrl+c" || String.eqb key "q" then (m, Quit)
      else if String.eqb key "c" then
        ({| content := ""; ready := ready m;
            viewport := SetContent (viewport m) "" |}, CmdNil)
      else delegate m msg []
  | WindowSizeMsg width height =>
      let headerHeight := headerView_Height (viewport m) in
      let footerHeight := footerView_Height (viewport m) in
      let verticalMarginHeight := Go.int_add headerHeight footerHeight in
      let m' :=
        if negb (ready m) then
          let v := viewport_New width (Go.int_sub height verticalMarginHeight) in
          let v := SetContent v (content m) in
          {| content := content m; ready := true;
             viewport :=
               {| Width := Width v; Height := Height v;
                  YPosition := Go.int_add headerHeight 1;
                  HighPerformanceRendering := useHighPerformanceRenderer;
                  shown := shown v |} |}
        else
          {| content := content m; ready := ready m;
             viewport :=
               {| Width := width;
                  Height := Go.int_sub height verticalMarginHeight;
                  YPosition := YPosition (viewport m);
                  HighPerformanceRendering :=
                    HighPerformanceRendering (viewport m);
                  shown := shown (viewport m) |} |} in
      let cmds :=
        if useHighPerformanceRenderer then [viewport_Sync (viewport m')]
        else [] in
      delegate m' msg cmds
  | RemoteMessage r =>
      if 0 <? Go.len (message r) then
        let content' :=
          content m
          ++ formatBlock (name r) (message r) (Width (viewport m)) in
        ({| content := content'; ready := ready m;
            viewport := SetContent (viewport m) content' |}, CmdNil)
      else (m, CmdNil)
  | OtherMsg => delegate m msg []
  end.

End RenderLoop.

(** A terminal that neither styles nor wraps and whose viewport ignores
    the input delegated to it; the render loop is run on it where a
    concrete run is shown. *)
Definition plainTerminal : Terminal :=
  {| boldStyle_Render := fun s => s;
     wordwrap_String := fun s _ => s;
     indent_String := fun s _ => s;
     wrap_String := fun s _ => s;
     headerView_Height := fun _ => 3;
     footerView_Height := fun _ => 3;
     viewport_Update := fun v _ => (v, CmdNil);
     viewport_Sync := fun _ => CmdNil |}.

(** ** The vocabulary of the properties *)

(** The bytes a peer sends for the lines [lines]: each one followed by
    the line terminator. *)
Fixpoint encode (lines : list string) : string :=
  match lines with
  | [] => ""
  | l :: ls => l ++ String newline (encode ls)
  end.

Fixpoint noNewline (s : string) : bool :=
  match s with
  | "" => true
  | String c s' => negb (Ascii.eqb c newline) && noNewline s'
  end.

(** [sub] occurs in [s], at any position. *)
Definition Contains (s sub : string) : Prop :=
  exists pre post, s = pre ++ sub ++ post.

(** The worker treats the line as an identity announcement. *)
Definition isAnnouncement (str : string) : bool :=
  match handleLine "" str with
  | Some (_, None) => true
  | _ => false
  end.

(** The label the worker holds after the line [str] alone. *)
Definition labelSetBy (str : string) : string :=
  match handleLine "" str with
  | Some (name', _) => name'
  | None => ""
  end.

(** The label set by the most recent announcement among [pre], or
    [name] when there is none. *)
Definition labelFrom (name : string) (pre : list string) : string :=
  match find isAnnouncement (rev pre) with
  | Some a => labelSetBy a
  | None => name
  end.

(** A connection starts with the empty label. *)
Definition labelBefore (pre : list string) : string := labelFrom "" pre.

(** The lines that are not identity announcements. *)
Definition isText (str : string) : bool := negb (isAnnouncement str).

(** A string made of white space runes only. *)
Inductive WhiteSpace : string -> Prop :=
| WhiteSpace_nil : WhiteSpace ""
| WhiteSpace_1 a s :
    Go.isSpace1 a = true -> WhiteSpace s -> WhiteSpace (String a s)
| WhiteSpace_2 a b s :
    Go.isSpace2 a b = true -> WhiteSpace s ->
    WhiteSpace (String a (String b s))
| WhiteSpace_3 a b c s :
    Go.isSpace3 a b c = true -> WhiteSpace s ->
    WhiteSpace (String a (String b (String c s))).

(** The messages sent for the lines [lines] by a worker whose identity
    is [name] when it reads the first of them. *)
Fixpoint tagged (name : string) (lines : list string) : list remoteMessage :=
  match lines with
  | [] => []
  | str :: rest =>
      if isAnnouncement str then tagged (labelSetBy str) rest
      else {| name := name; message := str |} :: tagged name rest
  end.

(** ** The rest of the listener's view *)

(** [max], lines 215-220. *)
Definition max (a b : Z) : Z := if a >? b then a else b.

Module GoRepeat.

Fixpoint copies (n : nat) (s : string) : string :=
  match n with
  | O => ""
  | S n' => s ++ copies n' s
  end.

(** [strings.Repeat(s, count)]: it panics, here [None], when [count] is
    negative or when the length of the result overflows an [int]. *)
Definition Repeat (s : string) (count : Z) : option string :=
  if count <? 0 then None
  else if 2 ^ 63 - 1 <? Go.len s * count then None
  else Some (copies (Z.to_nat count) s).

End GoRepeat.

(** The box-drawing rune U+2500 of the header and footer rules, three
    bytes in UTF-8. *)
Definition rule : string :=
  String "226"%char (String "148"%char (String "128"%char "")).

(** What lipgloss and the viewport contribute to the view: the rendered
    title and scroll indicator, the width of a rendered string, the
    horizontal join and the viewport's own view.  Their sources are not
    in the repository. *)
Class Chrome : Type := {
  title : string;
  info : viewport_Model -> string;
  lipgloss_Width : string -> Z;
  JoinHorizontal : string -> string -> string;
  viewport_View : viewport_Model -> string
}.

Section View.

Context {C : Chrome}.

(** [headerView], lines 203-207; [None] is a panic of [strings.Repeat]. *)
Definition headerView (m : model) : option string :=
  match GoRepeat.Repeat rule
          (max 0 (Go.int_sub (Width (viewport m)) (lipgloss_Width title))) with
  | Some line => Some (JoinHorizontal title line)
  | None => None
  end.

(** [footerView], lines 209-213. *)
Definition footerView (m : model) : option string :=
  match GoRepeat.Repeat rule
          (max 0 (Go.int_sub (Width (viewport m))
                    (lipgloss_Width (info (viewport m))))) with
  | Some line => Some (JoinHorizontal line (info (viewport m)))
  | None => None
  end.

(** [View], lines 194-201. *)
Definition View (m : model) : option string :=
  if negb (ready m) then Some (String newline "  Initializing...")
  else
    match headerView m with
    | None => None
    | Some header =>
        let body := viewport_View (viewport m) in
        match footerView m with
        | None => None
        | Some footer =>
            Some (header ++ String newline (body ++ String newline footer))
        end
    end.

End View.

(** A chrome without styling, in which a string is as wide as it has
    bytes and joining is concatenation; header and footer are run on it
    where a concrete run is shown. *)
Definition plainChrome : Chrome :=
  {| title := "Debug listener -- Press q to quit, c to clear the output area.";
     info := fun _ => "  0%";
     lipgloss_Width := Go.len;
     JoinHorizontal := append;
     viewport_View := shown |}.

(** The render loop fed the messages [msgs] one after the other, as the
    program delivers them to [Update]. *)
Definition UpdateAll {T : Terminal} (m : model) (msgs : list Msg) : model :=
  fold_left (fun m msg => fst (Update m msg)) msgs m.

(** The number of occurrences of the byte [c] in [s]. *)
Fixpoint countByte (c : ascii) (s : string) : nat :=
  match s with
  | "" => O
  | String x s' => ((if Ascii.eqb x c then 1 else 0) + countByte c s')%nat
  end.

(** ** The sender (example-client.go) *)

(** Lines 29-32: what the sender writes to the connection before its
    loop, for the command line [args] ([os.Args]). *)
Definition announce (args : list string) : list string :=
  match args with
  | _ :: arg :: _ => [marker ++ arg ++ String newline ""]
  | _ => []
  end.

(** Lines 35-44: the writes of the first [fuel] iterations of the loop,
    which has no exit, on the standard input [stdin].  [ReadString]
    returns the bytes it read together with its error, and the error is
    dropped: at the end of the input the writes are empty. *)
Fixpoint forward (fuel : nat) (stdin : string) : list string :=
  match fuel with
  | O => []
  | S fuel' =>
      let '(input, _, rest) := Go.ReadBytes newline stdin in
      input :: forward fuel' rest
  end.

(** [main] of the sender once connected. *)
Definition client (fuel : nat) (args : list string) (stdin : string)
  : list string :=
  (announce args ++ forward fuel stdin)%list.

(** The bytes a connection carries for a sequence of writes. *)
Definition stream (writes : list string) : string :=
  fold_right append "" writes.

(** The label the listener shows for a sender started with [args]. *)
Definition senderLabel (args : list string) : string :=
  match args with
  | _ :: arg :: _ => Go.TrimSpace arg ++ ": "
  | _ => ""
  end.

(** ** Announcements, as a property of the line alone *)

(** [sub] occurs in [s], at the start or further on. *)
Fixpoint occurs (sub s : string) : bool :=
  if String.prefix sub s then true
  else match s with
       | "" => false
       | String _ s' => occurs sub s'
       end.

(** What follows the first occurrence of [sub] in [s]; the empty string
    when there is none. *)
Fixpoint afterFirst (sub s : string) : string :=
  if String.prefix sub s then Go.drop (String.length sub) s
  else match s with
       | "" => ""
       | String _ s' => afterFirst sub s'
       end.

(** The marker occurs in the line. *)
Definition hasMarker (str : string) : bool := occurs marker str.

Definition noMarker (str : string) : bool := negb (hasMarker str).

(** The label a line with the marker announces: the text after the
    first occurrence of the marker, without the white space around it,
    and the terminator. *)
Definition announcedLabel (str : string) : string :=
  Go.TrimSpace (afterFirst marker str) ++ ": ".

(** The label announced by the last line of [pre] in which the marker
    occurs, the empty label when there is none. *)
Definition latestLabel (pre : list string) : string :=
  match find hasMarker (rev pre) with
  | Some a => announcedLabel a
  | None => ""
  end.

(** ** Strings *)

Lemma append_assoc (a b c : string) : (a ++ b) ++ c = a ++ (b ++ c).
Proof. induction a as [|x a IH]; simpl; [reflexivity | now rewrite IH]. Qed.

Lemma append_nil_r (a : string) : a ++ "" = a.
Proof. induction a as [|x a IH]; simpl; [reflexivity | now rewrite IH]. Qed.

Lemma length_append (a b : string) :
  String.length (a ++ b) = (String.length a + String.length b)%nat.
Proof. induction a as [|x a IH]; simpl; [reflexivity | now rewrite IH]. Qed.

Lemma len_append (a b : string) : Go.len (a ++ b) = Go.len a + Go.len b.
Proof. unfold Go.len. rewrite length_append. lia. Qed.

Lemma len_nonneg (a : string) : 0 <= Go.len a.
Proof. unfold Go.len. lia. Qed.

Lemma take_append (a b : string) : Go.take (String.length a) (a ++ b) = a.
Proof. induction a as [|x a IH]; simpl; [now destruct b | now rewrite IH]. Qed.

Lemma drop_append (a b : string) : Go.drop (String.length a) (a ++ b) = b.
Proof. induction a as [|x a IH]; simpl; [now destruct b | exact IH]. Qed.

Lemma take_length (a : string) : Go.take (String.length a) a = a.
Proof. rewrite <- (append_nil_r a) at 2. apply take_append. Qed.

(** [s[:len(s)-len(b)]] is [a] when [s] is [a ++ b]. *)
Lemma slice_front (a b : string) :
  Go.slice (a ++ b) 0 (Go.len (a ++ b) - Go.len b) = Some a.
Proof.
  unfold Go.slice. rewrite len_append.
  pose proof (len_nonneg a). pose proof (len_nonneg b).
  replace (Go.len a + Go.len b - Go.len b) with (Go.len a) by lia.
  replace ((0 <=? 0) && (0 <=? Go.len a) && (Go.len a <=? Go.len a + Go.len b))
    with true by (symmetry; rewrite !andb_true_iff, !Z.leb_le; lia).
  unfold Go.len at 1. rewrite Z.sub_0_r, Nat2Z.id. simpl Go.drop.
  now rewrite take_append.
Qed.

(** [s[len(a):]] is [b] when [s] is [a ++ b]. *)
Lemma slice_back (a b : string) :
  Go.slice (a ++ b) (Go.len a) (Go.len (a ++ b)) = Some b.
Proof.
  unfold Go.slice. rewrite len_append.
  pose proof (len_nonneg a). pose proof (len_nonneg b).
  replace ((0 <=? Go.len a) && (Go.len a <=? Go.len a + Go.len b)
           && (Go.len a + Go.len b <=? Go.len a + Go.len b))
    with true by (symmetry; rewrite !andb_true_iff, !Z.leb_le; lia).
  replace (Go.len a + Go.len b - Go.len a) with (Go.len b) by lia.
  unfold Go.len. rewrite !Nat2Z.id, drop_append. now rewrite take_length.
Qed.

Lemma prefix_append (p t : string) : String.prefix p (p ++ t) = true.
Proof.
  induction p as [|x p IH]; simpl; [now destruct t|].
  destruct (ascii_dec x x); [exact IH | congruence].
Qed.

Lemma prefix_split (p s : string) :
  String.prefix p s = true -> exists t, s = p ++ t.
Proof.
  revert s. induction p as [|x p IH]; intros s H.
  - now exists s.
  - destruct s as [|y s]; simpl in H; [discriminate|].
    destruct (ascii_dec x y) as [->|]; [|discriminate].
    destruct (IH _ H) as [t ->]. now exists t.
Qed.

(** ** [strings.Index] finds the first occurrence, if there is one *)

Lemma Index_unfold (s sub : string) :
  Go.Index s sub =
  if String.prefix sub s then 0
  else match s with
       | "" => -1
       | String _ s' =>
           if Go.Index s' sub =? -1 then -1 else Go.Index s' sub + 1
       end.
Proof. destruct s; reflexivity. Qed.

Lemma Index_found (s sub : string) :
  Go.Index s sub <> -1 ->
  exists pre post, s = pre ++ sub ++ post /\ Go.len pre = Go.Index s sub.
Proof.
  induction s as [|c s IH]; rewrite Index_unfold; intros H.
  - destruct (String.prefix sub "") eqn:E; [|congruence].
    destruct (prefix_split _ _ E) as [t Ht]. now exists "", t.
  - destruct (String.prefix sub (String c s)) eqn:E.
    + destruct (prefix_split _ _ E) as [t Ht]. now exists "", t.
    + destruct (Go.Index s sub =? -1) eqn:Ei; [congruence|].
      apply Z.eqb_neq in Ei. destruct (IH Ei) as (pre & post & Hs & Hl).
      exists (String c pre), post. split; [simpl; now rewrite <- Hs|].
      rewrite <- Hl. unfold Go.len. simpl String.length. lia.
Qed.

Lemma Index_absent (s sub : string) :
  Go.Index s sub = -1 -> ~ Contains s sub.
Proof.
  induction s as [|c s IH]; rewrite Index_unfold; intros H (pre & post & Hs).
  - destruct pre; [|discriminate]. simpl in Hs.
    rewrite Hs, prefix_append in H. discriminate.
  - destruct pre as [|x pre].
    + simpl in Hs. rewrite Hs, prefix_append in H. discriminate.
    + simpl in Hs. injection Hs as -> Hs.
      destruct (String.prefix sub (String x s)); [discriminate|].
      destruct (Go.Index s sub =? -1) eqn:Ei.
      * apply Z.eqb_eq in Ei. apply (IH Ei). now exists pre, post.
      * destruct (Index_found s sub) as (p & q & _ & Hl);
          [now apply Z.eqb_neq|].
        pose proof (len_nonneg p). lia.
Qed.

Lemma Index_Contains (s sub : string) :
  Contains s sub <-> Go.Index s sub <> -1.
Proof.
  split.
  - intros Hc Hi. exact (Index_absent _ _ Hi Hc).
  - intros Hi. destruct (Index_found _ _ Hi) as (pre & post & Hs & _).
    now exists pre, post.
Qed.

(** ** One line *)

Lemma handleLine_announcement (name str : string) :
  Go.Index str marker <> -1 ->
  exists pre post,
    str = pre ++ marker ++ post /\ Go.len pre = Go.Index str marker /\
    handleLine name str = Some (Go.TrimSpace post ++ ": ", None).
Proof.
  intros Hi. destruct (Index_found _ _ Hi) as (pre & post & Hs & Hl).
  exists pre, post. split; [exact Hs|]. split; [exact Hl|].
  unfold handleLine. apply Z.eqb_neq in Hi. rewrite Hi. simpl negb. cbv iota.
  rewrite <- Hl. rewrite Hs at 1 2.
  replace (Go.len pre + 8) with (Go.len (pre ++ marker))
    by (rewrite len_append; reflexivity).
  rewrite <- append_assoc, slice_back. reflexivity.
Qed.

Lemma handleLine_text (name str : string) :
  Go.Index str marker = -1 ->
  handleLine name str = Some (name, Some {| name := name; message := str |}).
Proof. intros Hi. unfold handleLine. now rewrite Hi. Qed.

Lemma isAnnouncement_Index (str : string) :
  isAnnouncement str = negb (Go.Index str marker =? -1).
Proof.
  unfold isAnnouncement. destruct (Go.Index str marker =? -1) eqn:E.
  - apply Z.eqb_eq in E. now rewrite handleLine_text.
  - apply Z.eqb_neq in E.
    destruct (handleLine_announcement "" str E) as (? & ? & _ & _ & ->).
    reflexivity.
Qed.

Lemma handleLine_isAnnouncement (name str : string) :
  isAnnouncement str = true ->
  handleLine name str = Some (labelSetBy str, None).
Proof.
  rewrite isAnnouncement_Index, negb_true_iff. intros E.
  assert (Hn : handleLine name str = handleLine "" str)
    by (unfold handleLine; now rewrite E).
  apply Z.eqb_neq in E. unfold labelSetBy. rewrite Hn.
  destruct (handleLine_announcement "" str E) as (p & q & _ & _ & ->).
  reflexivity.
Qed.

Lemma handleLine_isText (name str : string) :
  isAnnouncement str = false ->
  handleLine name str = Some (name, Some {| name := name; message := str |}).
Proof.
  rewrite isAnnouncement_Index, negb_false_iff, Z.eqb_eq.
  apply handleLine_text.
Qed.

(** ** Framing *)

Lemma ReadBytes_line (l rest : string) :
  noNewline l = true ->
  Go.ReadBytes newline (l ++ String newline rest)
  = (l ++ String newline "", false, rest).
Proof.
  induction l as [|c l IH]; simpl; intros H.
  - reflexivity.
  - apply andb_true_iff in H as [Hc Hl]. apply negb_true_iff in Hc.
    rewrite Hc, (IH Hl). reflexivity.
Qed.

Lemma ReadBytes_partial (p : string) :
  noNewline p = true -> Go.ReadBytes newline p = (p, true, "").
Proof.
  induction p as [|c p IH]; simpl; intros H.
  - reflexivity.
  - apply andb_true_iff in H as [Hc Hp]. apply negb_true_iff in Hc.
    rewrite Hc, (IH Hp). reflexivity.
Qed.

Lemma handleConnection_loop_unfold (fuel : nat) (reader name : string) :
  handleConnection_loop (S fuel) reader name =
  let '(buffer, err, reader') := Go.ReadBytes newline reader in
  if err then Some [Close]
  else
    match Go.slice buffer 0 (Go.len buffer - 1) with
    | None => Some [Panic]
    | Some str =>
        match handleLine name str with
        | None => Some [Panic]
        | Some (name', None) => handleConnection_loop fuel reader' name'
        | Some (name', Some m) =>
            option_map (cons (Send m)) (handleConnection_loop fuel reader' name')
        end
    end.
Proof. reflexivity. Qed.

Lemma encode_append (lines : list string) (str rest : string) :
  encode (str :: lines) ++ rest = str ++ String newline (encode lines ++ rest).
Proof. simpl. now rewrite append_assoc. Qed.

Lemma length_encode (lines : list string) :
  (List.length lines <= String.length (encode lines))%nat.
Proof.
  induction lines as [|l ls IH]; simpl; [lia|].
  rewrite length_append. simpl. lia.
Qed.

(** The worker on a framed stream: the complete lines [lines] followed
    by [partial], which has no terminator.  One iteration per line and
    one for the failing read. *)
Lemma handleConnection_loop_encode (lines : list string) (partial : string) :
  forallb noNewline lines = true ->
  noNewline partial = true ->
  forall (fuel : nat) (name : string),
    (List.length lines < fuel)%nat ->
    handleConnection_loop fuel (encode lines ++ partial) name
    = Some (map Send (tagged name lines) ++ [Close])%list.
Proof.
  intros Hl Hp. induction lines as [|l ls IH]; intros fuel name Hf.
  - destruct fuel as [|fuel]; [simpl in Hf; lia|].
    rewrite handleConnection_loop_unfold. simpl encode. simpl append.
    now rewrite ReadBytes_partial.
  - destruct fuel as [|fuel]; [simpl in Hf; lia|].
    simpl in Hl. apply andb_true_iff in Hl as [Hn Hls].
    rewrite handleConnection_loop_unfold, encode_append, ReadBytes_line by exact Hn.
    cbv iota beta.
    replace (Go.len (l ++ String newline "") - 1)
      with (Go.len (l ++ String newline "") - Go.len (String newline ""))
      by reflexivity.
    rewrite slice_front. simpl tagged.
    destruct (isAnnouncement l) eqn:Ea.
    + rewrite (handleLine_isAnnouncement name l Ea).
      apply IH; [exact Hls | simpl in Hf; lia].
    + rewrite (handleLine_isText name l Ea).
      rewrite IH; [reflexivity | exact Hls | simpl in Hf; lia].
Qed.

Lemma handleConnection_encode (lines : list string) (partial : string) :
  forallb noNewline lines = true ->
  noNewline partial = true ->
  handleConnection (encode lines ++ partial)
  = Some (map Send (tagged "" lines) ++ [Close])%list.
Proof.
  intros Hl Hp. unfold handleConnection.
  apply handleConnection_loop_encode; [exact Hl | exact Hp |].
  rewrite length_append. pose proof (length_encode lines). lia.
Qed.

(** Every byte stream is a sequence of complete lines followed by a
    partial one. *)
Lemma framing (conn : string) :
  exists lines partial,
    conn = encode lines ++ partial /\
    forallb noNewline lines = true /\ noNewline partial = true.
Proof.
  induction conn as [|c conn (lines & partial & Hc & Hl & Hp)].
  - now exists [], "".
  - destruct (Ascii.eqb c newline) eqn:E.
    + apply Ascii.eqb_eq in E. subst c.
      exists ("" :: lines), partial. simpl. now rewrite Hc, Hl.
    + destruct lines as [|l ls].
      * exists [], (String c partial). simpl in *. now rewrite E, Hp, Hc.
      * exists (String c l :: ls), partial. simpl in *.
        apply andb_true_iff in Hl as [Hl Hls].
        now rewrite E, Hl, Hls, Hc.
Qed.

(** [handleConnection] returns on every stream: it never uses up the
    iterations it is given, never panics, and closes the connection
    last. *)
Lemma handleConnection_returns (conn : string) :
  exists msgs, handleConnection conn = Some (map Send msgs ++ [Close])%list.
Proof.
  destruct (framing conn) as (lines & partial & -> & Hl & Hp).
  exists (tagged "" lines). now apply handleConnection_encode.
Qed.

(** More iterations than needed change nothing. *)
Lemma handleConnection_loop_fuel (fuel fuel' : nat) (reader name : string)
    (tr : list event) :
  handleConnection_loop fuel reader name = Some tr ->
  (fuel <= fuel')%nat ->
  handleConnection_loop fuel' reader name = Some tr.
Proof.
  revert fuel' reader name tr.
  induction fuel as [|fuel IH]; intros fuel' reader name tr H Hle;
    [discriminate|].
  destruct fuel' as [|fuel']; [lia|].
  rewrite handleConnection_loop_unfold in *.
  destruct (Go.ReadBytes newline reader) as [[buffer err] reader'].
  destruct err; [exact H|].
  destruct (Go.slice buffer 0 (Go.len buffer - 1)) as [str|]; [|exact H].
  destruct (handleLine name str) as [[name' [m|]]|]; [| |exact H].
  - destruct (handleConnection_loop fuel reader' name') as [tr'|] eqn:E;
      [|discriminate].
    rewrite (IH fuel' _ _ _ E); [exact H | lia].
  - apply IH; [exact H | lia].
Qed.

(** ** The label a message carries *)

Lemma find_append {A : Type} (f : A -> bool) (l1 l2 : list A) :
  find f (l1 ++ l2)%list
  = match find f l1 with Some x => Some x | None => find f l2 end.
Proof.
  induction l1 as [|x l1 IH]; simpl; [reflexivity|].
  destruct (f x); [reflexivity | exact IH].
Qed.

Lemma labelFrom_cons (name str : string) (pre : list string) :
  labelFrom name (str :: pre)
  = labelFrom (if isAnnouncement str then labelSetBy str else name) pre.
Proof.
  unfold labelFrom. simpl rev. rewrite find_append. simpl find.
  destruct (find isAnnouncement (rev pre)); [reflexivity|].
  now destruct (isAnnouncement str).
Qed.

Lemma tagged_append (pre post : list string) (name : string) :
  tagged name (pre ++ post)%list
  = (tagged name pre ++ tagged (labelFrom name pre) post)%list.
Proof.
  revert name. induction pre as [|str pre IH]; intros name.
  - reflexivity.
  - rewrite labelFrom_cons. simpl.
    destruct (isAnnouncement str); rewrite IH; reflexivity.
Qed.

Lemma tagged_messages (lines : list string) (name : string) :
  map message (tagged name lines) = filter isText lines.
Proof.
  revert name. induction lines as [|str lines IH]; intros name.
  - reflexivity.
  - simpl. unfold isText at 1.
    destruct (isAnnouncement str); simpl; now rewrite IH.
Qed.

(** ** White space *)

Ltac space_arith :=
  unfold Go.isSpace1, Go.isSpace2, Go.isSpace3; cbv zeta;
  repeat match goal with
         | |- context [N_of_ascii ?a] => generalize (N_of_ascii a); intro
         end;
  rewrite ?andb_true_iff, ?orb_true_iff, ?andb_true_iff, ?orb_true_iff,
    ?N.eqb_eq, ?N.leb_le;
  intros;
  match goal with
  | |- ?b = false =>
      destruct b eqn:Hb; [exfalso | reflexivity];
      rewrite ?andb_true_iff, ?orb_true_iff, ?andb_true_iff, ?orb_true_iff,
        ?N.eqb_eq, ?N.leb_le in Hb;
      lia
  end.

Lemma isSpace2_not1 (a b : ascii) :
  Go.isSpace2 a b = true -> Go.isSpace1 a = false.
Proof. space_arith. Qed.

Lemma isSpace3_not1 (a b c : ascii) :
  Go.isSpace3 a b c = true -> Go.isSpace1 a = false.
Proof. space_arith. Qed.

Lemma isSpace3_not2 (a b c : ascii) :
  Go.isSpace3 a b c = true -> Go.isSpace2 a b = false.
Proof. space_arith. Qed.

Lemma trimLeftSpace_WhiteSpace (ws : string) :
  WhiteSpace ws -> Go.trimLeftSpace (list_ascii_of_string ws) = [].
Proof.
  unfold Go.trimLeftSpace.
  induction 1 as [|a s Ha _ IH|a b s Hab _ IH|a b c s Habc _ IH]; simpl.
  - reflexivity.
  - now rewrite Ha.
  - now rewrite (isSpace2_not1 _ _ Hab), Hab.
  - now rewrite (isSpace3_not1 _ _ _ Habc), (isSpace3_not2 _ _ _ Habc), Habc.
Qed.

Lemma TrimSpace_WhiteSpace (ws : string) :
  WhiteSpace ws -> Go.TrimSpace ws = "".
Proof.
  intros H. unfold Go.TrimSpace. now rewrite (trimLeftSpace_WhiteSpace ws H).
Qed.

(** ** The line protocol *)

(** C1, as the code has it: a line is an identity announcement exactly
    when the marker [::name::] occurs in it, at the start or further on.
    Either the marker occurs, the identity becomes the trimmed text after
    its first occurrence followed by ": " and no message is sent; or it
    does not occur, the identity is kept and the line is sent as a
    message under it. *)
Theorem C1_announcement_iff_marker_occurs (name str : string) :
  (Contains str marker /\
   exists pre post,
     str = pre ++ marker ++ post /\ Go.len pre = Go.Index str marker /\
     handleLine name str = Some (Go.TrimSpace post ++ ": ", None))
  \/
  (~ Contains str marker /\
   handleLine name str
   = Some (name, Some {| name := name; message := str |})).
Proof.
  destruct (Z.eq_dec (Go.Index str marker) (-1)) as [E|E].
  - right. split; [now apply Index_absent | now apply handleLine_text].
  - left. split; [now apply Index_Contains|].
    now apply handleLine_announcement.
Qed.

(** C1 as stated fails: the line [x::name::Bob] does not begin with the
    marker, yet it sets the identity to [Bob: ] and is not sent; the
    line that follows is sent under that identity. *)
Lemma C1_marker_inside_line :
  Go.HasPrefix "x::name::Bob" marker = false /\
  handleLine "Alice: " "x::name::Bob" = Some ("Bob: ", None) /\
  handleConnection (encode ["x::name::Bob"; "hi"])
  = Some [Send {| name := "Bob: "; message := "hi" |}; Close].
Proof. repeat split; vm_compute; reflexivity. Qed.

(** ** Announcements, read off the line alone *)

Lemma Index_lower (s sub : string) : -1 <= Go.Index s sub.
Proof.
  induction s as [|c s IH]; rewrite Index_unfold.
  - destruct (String.prefix sub ""); lia.
  - destruct (String.prefix sub (String c s)); [lia|].
    destruct (Go.Index s sub =? -1); lia.
Qed.

Lemma occurs_unfold (sub s : string) :
  occurs sub s =
  if String.prefix sub s then true
  else match s with
       | "" => false
       | String _ s' => occurs sub s'
       end.
Proof. destruct s; reflexivity. Qed.

Lemma afterFirst_unfold (sub s : string) :
  afterFirst sub s =
  if String.prefix sub s then Go.drop (String.length sub) s
  else match s with
       | "" => ""
       | String _ s' => afterFirst sub s'
       end.
Proof. destruct s; reflexivity. Qed.

Lemma occurs_Index (sub s : string) :
  occurs sub s = negb (Go.Index s sub =? -1).
Proof.
  induction s as [|c s IH]; rewrite occurs_unfold, Index_unfold.
  - now destruct (String.prefix sub "").
  - destruct (String.prefix sub (String c s)); [reflexivity|].
    rewrite IH. destruct (Z.eqb_spec (Go.Index s sub) (-1)) as [E|E].
    + reflexivity.
    + pose proof (Index_lower s sub).
      destruct (Z.eqb_spec (Go.Index s sub + 1) (-1)); [lia | reflexivity].
Qed.

Lemma hasMarker_Contains (str : string) :
  hasMarker str = true <-> Contains str marker.
Proof.
  unfold hasMarker. rewrite occurs_Index, negb_true_iff, Z.eqb_neq.
  symmetry. apply Index_Contains.
Qed.

Lemma slice_cons (c : ascii) (s : string) (lo hi : Z) :
  0 <= lo ->
  Go.slice (String c s) (lo + 1) (hi + 1) = Go.slice s lo hi.
Proof.
  intros Hlo. unfold Go.slice.
  replace (Go.len (String c s)) with (Go.len s + 1)
    by (unfold Go.len; simpl String.length; lia).
  replace (0 <=? lo + 1) with (0 <=? lo)
    by (destruct (Z.leb_spec 0 lo), (Z.leb_spec 0 (lo + 1)); lia || reflexivity).
  replace (lo + 1 <=? hi + 1) with (lo <=? hi)
    by (destruct (Z.leb_spec lo hi), (Z.leb_spec (lo + 1) (hi + 1));
        lia || reflexivity).
  replace (hi + 1 <=? Go.len s + 1) with (hi <=? Go.len s)
    by (destruct (Z.leb_spec hi (Go.len s)),
          (Z.leb_spec (hi + 1) (Go.len s + 1)); lia || reflexivity).
  replace (hi + 1 - (lo + 1)) with (hi - lo) by lia.
  replace (Z.to_nat (lo + 1)) with (S (Z.to_nat lo)) by lia.
  reflexivity.
Qed.

(** The slice [str[index+len(sub):]] of line 82 is what follows the
    first occurrence of [sub]. *)
Lemma slice_after_Index (sub s : string) :
  Go.Index s sub <> -1 ->
  Go.slice s (Go.Index s sub + Go.len sub) (Go.len s)
  = Some (afterFirst sub s).
Proof.
  induction s as [|c s IH]; rewrite Index_unfold, afterFirst_unfold; intros H.
  - destruct (String.prefix sub "") eqn:E; [|congruence].
    destruct (prefix_split _ _ E) as [t Ht]. rewrite Ht at 1 2 3.
    now rewrite Z.add_0_l, slice_back, drop_append.
  - destruct (String.prefix sub (String c s)) eqn:E.
    + destruct (prefix_split _ _ E) as [t Ht]. rewrite Ht.
      now rewrite Z.add_0_l, slice_back, drop_append.
    + destruct (Z.eqb_spec (Go.Index s sub) (-1)) as [Ei|Ei]; [congruence|].
      pose proof (Index_lower s sub). pose proof (len_nonneg sub).
      replace (Go.Index s sub + 1 + Go.len sub)
        with (Go.Index s sub + Go.len sub + 1) by lia.
      replace (Go.len (String c s)) with (Go.len s + 1)
        by (unfold Go.len; simpl String.length; lia).
      rewrite slice_cons by lia. now apply IH.
Qed.

(** The treatment of a line, told from the line alone: a line in which
    the marker occurs sets the label announced in it and sends nothing;
    any other line is sent under the identity in force. *)
Lemma handleLine_hasMarker (name str : string) :
  handleLine name str
  = if hasMarker str then Some (announcedLabel str, None)
    else Some (name, Some {| name := name; message := str |}).
Proof.
  unfold hasMarker. rewrite occurs_Index. unfold handleLine.
  destruct (Z.eqb_spec (Go.Index str marker) (-1)) as [E|E]; cbn [negb].
  - reflexivity.
  - change 8 with (Go.len marker). now rewrite (slice_after_Index _ _ E).
Qed.

Lemma isAnnouncement_hasMarker (str : string) :
  isAnnouncement str = hasMarker str.
Proof.
  unfold isAnnouncement. rewrite handleLine_hasMarker.
  now destruct (hasMarker str).
Qed.

Lemma isText_noMarker (str : string) : isText str = noMarker str.
Proof. unfold isText, noMarker. now rewrite isAnnouncement_hasMarker. Qed.

Lemma labelSetBy_announcedLabel (str : string) :
  hasMarker str = true -> labelSetBy str = announcedLabel str.
Proof.
  intros H. unfold labelSetBy. now rewrite handleLine_hasMarker, H.
Qed.

Lemma find_hasMarker (l : list string) :
  find isAnnouncement l = find hasMarker l.
Proof.
  induction l as [|x l IH]; [reflexivity|].
  cbn [find]. now rewrite isAnnouncement_hasMarker, IH.
Qed.

Lemma labelBefore_latestLabel (pre : list string) :
  labelBefore pre = latestLabel pre.
Proof.
  unfold labelBefore, labelFrom, latestLabel. rewrite find_hasMarker.
  destruct (find hasMarker (rev pre)) as [a|] eqn:E; [|reflexivity].
  apply find_some in E as [_ E]. now apply labelSetBy_announcedLabel.
Qed.

Lemma filter_isText_noMarker (lines : list string) :
  filter isText lines = filter noMarker lines.
Proof.
  induction lines as [|x l IH]; [reflexivity|].
  cbn [filter]. now rewrite isText_noMarker, IH.
Qed.

Lemma forallb_isText_noMarker (lines : list string) :
  forallb isText lines = forallb noMarker lines.
Proof.
  induction lines as [|x l IH]; [reflexivity|].
  cbn [forallb]. now rewrite isText_noMarker, IH.
Qed.

(** C2, as the code has it: on a connection whose complete lines are
    [pre], then a line [str] in which the marker does not occur, then
    [post], the message sent for [str] carries the label announced by
    the last line among [pre] in which the marker occurs, at the start
    or further on: the trimmed text after the first occurrence of the
    marker in that line, followed by ": ".  It carries the empty label
    when the marker occurs in no line of [pre].  The messages before it
    are those of [pre] and the messages after it those of [post]. *)
Theorem C2_label_is_latest_marker_line
    (pre : list string) (str : string) (post : list string) (partial : string) :
  forallb noNewline (pre ++ str :: post)%list = true ->
  noNewline partial = true ->
  hasMarker str = false ->
  exists before after,
    handleConnection (encode (pre ++ str :: post)%list ++ partial)
    = Some (map Send
              (before ++ {| name := latestLabel pre; message := str |} :: after)
            ++ [Close])%list /\
    map message before = filter noMarker pre /\
    map message after = filter noMarker post.
Proof.
  intros Hl Hp Ha. rewrite <- isAnnouncement_hasMarker in Ha.
  exists (tagged "" pre), (tagged (labelBefore pre) post).
  rewrite (handleConnection_encode _ _ Hl Hp), tagged_append.
  cbn [tagged]. rewrite Ha, !tagged_messages, !filter_isText_noMarker.
  fold (labelBefore pre). rewrite labelBefore_latestLabel. now repeat split.
Qed.

Lemma C2_label_is_latest_marker_line_witness :
  latestLabel ["::name::Alice"; "hi"; "log ::name:: Bob "] = "Bob: " /\
  exists before after,
    handleConnection
      (encode (["::name::Alice"; "hi"; "log ::name:: Bob "]
               ++ "hello" :: ["bye"])%list
       ++ "")
    = Some (map Send
              (before
               ++ {| name := latestLabel
                               ["::name::Alice"; "hi"; "log ::name:: Bob "];
                     message := "hello" |} :: after)
            ++ [Close])%list /\
    map message before
    = filter noMarker ["::name::Alice"; "hi"; "log ::name:: Bob "] /\
    map message after = filter noMarker ["bye"].
Proof.
  split; [reflexivity|].
  apply (C2_label_is_latest_marker_line
           ["::name::Alice"; "hi"; "log ::name:: Bob "] "hello" ["bye"] "");
    reflexivity.
Defined.

(** C2 as stated fails: no line beginning with the marker precedes the
    line [hi], so its label should be empty; it is sent under [Bob: ],
    set by the line [x::name::Bob], which only contains the marker. *)
Lemma C2_label_set_by_inner_marker :
  find (fun l => Go.HasPrefix l marker) (rev ["x::name::Bob"]) = None /\
  handleConnection (encode ["x::name::Bob"; "hi"])
  = Some [Send {| name := "Bob: "; message := "hi" |}; Close].
Proof. split; vm_compute; reflexivity. Qed.

(** C3, as the code has it: the worker sends exactly the lines in which
    the marker does not occur, one message each and in the order read,
    and nothing for a line in which the marker occurs, at the start or
    further on. *)
Theorem C3_one_message_per_line_without_marker
    (lines : list string) (partial : string) :
  forallb noNewline lines = true ->
  noNewline partial = true ->
  exists msgs,
    handleConnection (encode lines ++ partial)
    = Some (map Send msgs ++ [Close])%list /\
    map message msgs = filter noMarker lines.
Proof.
  intros Hl Hp. exists (tagged "" lines).
  rewrite (handleConnection_encode _ _ Hl Hp), tagged_messages,
    filter_isText_noMarker.
  now split.
Qed.

Lemma C3_one_message_per_line_without_marker_witness :
  filter noMarker ["one"; "::name::Ann"; "two"; "x ::name::Bo"; ""; "three"]
  = ["one"; "two"; ""; "three"] /\
  exists msgs,
    handleConnection
      (encode ["one"; "::name::Ann"; "two"; "x ::name::Bo"; ""; "three"] ++ "")
    = Some (map Send msgs ++ [Close])%list /\
    map message msgs
    = filter noMarker ["one"; "::name::Ann"; "two"; "x ::name::Bo"; ""; "three"].
Proof.
  split; [reflexivity|].
  apply (C3_one_message_per_line_without_marker
           ["one"; "::name::Ann"; "two"; "x ::name::Bo"; ""; "three"] "");
    reflexivity.
Defined.

(** C3 as stated fails: neither [x::name::Bob] nor [hi] begins with the
    marker, so both are non-identity lines, yet one message is sent for
    the two of them: nothing is sent for [x::name::Bob]. *)
Lemma C3_inner_marker_line_not_sent :
  filter (fun l => negb (Go.HasPrefix l marker)) ["x::name::Bob"; "hi"]
  = ["x::name::Bob"; "hi"] /\
  handleConnection (encode ["x::name::Bob"; "hi"])
  = Some [Send {| name := "Bob: "; message := "hi" |}; Close].
Proof. split; vm_compute; reflexivity. Qed.

(** C8: when the stream ends or a read fails after the complete lines
    [lines] and the unterminated bytes [partial], the worker behaves as
    on [lines] alone: the partial data are dropped, the connection is
    closed, and closing it is the last thing the worker does. *)
Theorem C8_partial_line_discarded (lines : list string) (partial : string) :
  forallb noNewline lines = true ->
  noNewline partial = true ->
  handleConnection (encode lines ++ partial) = handleConnection (encode lines) /\
  exists msgs,
    handleConnection (encode lines ++ partial)
    = Some (map Send msgs ++ [Close])%list /\
    List.length msgs = List.length (filter isText lines).
Proof.
  intros Hl Hp. split.
  - rewrite <- (append_nil_r (encode lines)) at 2.
    now rewrite !handleConnection_encode.
  - exists (tagged "" lines). rewrite (handleConnection_encode _ _ Hl Hp).
    split; [reflexivity|]. now rewrite <- (tagged_messages lines ""), length_map.
Qed.

Lemma C8_partial_line_discarded_witness :
  handleConnection (encode ["::name::Bob"; "first"] ++ "unfinished")
  = Some [Send {| name := "Bob: "; message := "first" |}; Close] /\
  handleConnection (encode ["::name::Bob"; "first"] ++ "unfinished")
  = handleConnection (encode ["::name::Bob"; "first"]) /\
  exists msgs,
    handleConnection (encode ["::name::Bob"; "first"] ++ "unfinished")
    = Some (map Send msgs ++ [Close])%list /\
    List.length msgs = List.length (filter isText ["::name::Bob"; "first"]).
Proof.
  split; [reflexivity|].
  apply (C8_partial_line_discarded ["::name::Bob"; "first"] "unfinished");
    reflexivity.
Defined.

(** C4, as the code has it: a line made of the marker and a remainder
    that is empty or white space only sets the identity to the label
    terminator ": " alone, whatever the identity was, sends nothing and
    raises no error; a later message is formatted with ": " as its
    emphasized prefix. *)
Theorem C4_blank_announcement_sets_terminator (name ws : string) :
  WhiteSpace ws ->
  handleLine name (marker ++ ws) = Some (": ", None) /\
  forall (T : Terminal) (text : string) (width : Z),
    formatBlock ": " text width
    = wrap_String
        (Go.TrimLeft_space
           (indent_String
              (" " ++ wordwrap_String (boldStyle_Render ": " ++ text)
                        (wordwrapLimit width ": ")) 4)
         ++ String newline "") width.
Proof.
  intros Hws. split; [|reflexivity].
  assert (Hi : Go.Index (marker ++ ws) marker = 0)
    by (rewrite Index_unfold, prefix_append; reflexivity).
  unfold handleLine. rewrite Hi. simpl negb. cbv iota.
  change (0 + 8) with (Go.len marker).
  now rewrite slice_back, (TrimSpace_WhiteSpace ws Hws).
Qed.

Lemma C4_blank_announcement_sets_terminator_witness :
  handleLine "Alice: " (marker ++ "  ") = Some (": ", None) /\
  forall (T : Terminal) (text : string) (width : Z),
    formatBlock ": " text width
    = wrap_String
        (Go.TrimLeft_space
           (indent_String
              (" " ++ wordwrap_String (boldStyle_Render ": " ++ text)
                        (wordwrapLimit width ": ")) 4)
         ++ String newline "") width.
Proof.
  apply (C4_blank_announcement_sets_terminator "Alice: " "  ").
  apply WhiteSpace_1; [reflexivity|].
  apply WhiteSpace_1; [reflexivity|]. apply WhiteSpace_nil.
Defined.

(** C4 as stated fails: after the line [::name::] followed by two
    blanks the identity is ": ", not the empty label, and the next
    message is sent under it. *)
Lemma C4_blank_announcement_label :
  handleLine "Alice: " (marker ++ "  ") = Some (": ", None) /\
  Go.len ": " = 2 /\
  handleConnection (encode [marker ++ "  "; "hi"])
  = Some [Send {| name := ": "; message := "hi" |}; Close].
Proof. repeat split; vm_compute; reflexivity. Qed.

(** ** The render loop *)

Section RenderLoopFacts.

Context {T : Terminal}.

Lemma Update_clear (m : model) :
  Update m (KeyMsg "c")
  = ({| content := ""; ready := ready m;
        viewport := SetContent (viewport m) "" |}, CmdNil).
Proof. reflexivity. Qed.

Lemma Update_text (m : model) (r : remoteMessage) :
  0 < Go.len (message r) ->
  Update m (RemoteMessage r)
  = ({| content :=
          content m ++ formatBlock (name r) (message r) (Width (viewport m));
        ready := ready m;
        viewport :=
          SetContent (viewport m)
            (content m
             ++ formatBlock (name r) (message r) (Width (viewport m))) |},
     CmdNil).
Proof. intros H. unfold Update. apply Z.ltb_lt in H. now rewrite H. Qed.

Lemma Update_no_text (m : model) (r : remoteMessage) :
  Go.len (message r) = 0 -> Update m (RemoteMessage r) = (m, CmdNil).
Proof. intros H. unfold Update. now rewrite H. Qed.

End RenderLoopFacts.

(** C5, as the code has it: a message whose text is empty is dropped by
    the render loop, whatever its identity and the width: nothing is
    formatted, transcript and viewport stay as they were, and no command
    is issued. *)
Theorem C5_empty_text_is_dropped (T : Terminal) (m : model) (identity : string) :
  Update m (RemoteMessage {| name := identity; message := "" |}) = (m, CmdNil).
Proof. now apply Update_no_text. Qed.

(** C5 as stated fails: after a message with the identity [Alice: ] and
    an empty text the transcript is still empty; no block of an indent
    and a line break was appended to it. *)
Lemma C5_empty_text_appends_nothing :
  content
    (fst (@Update plainTerminal initialModel
            (RemoteMessage {| name := "Alice: "; message := "" |})))
  = "" /\
  handleConnection (encode ["::name::Alice"; ""])
  = Some [Send {| name := "Alice: "; message := "" |}; Close].
Proof. split; vm_compute; reflexivity. Qed.

(** C7: clearing the transcript and then receiving a message leaves the
    transcript that the same message gives from an empty transcript
    shown at the same width; what was in the transcript before the
    clear-request has no influence. *)
Theorem C7_clear_then_message (T : Terminal) (m m0 : model) (r : remoteMessage) :
  content m0 = "" ->
  Width (viewport m0) = Width (viewport m) ->
  content (fst (Update (fst (Update m (KeyMsg "c"))) (RemoteMessage r)))
  = content (fst (Update m0 (RemoteMessage r))).
Proof.
  intros Hc Hw. rewrite Update_clear. cbn [fst].
  destruct (Z.ltb_spec 0 (Go.len (message r))) as [H|H].
  - rewrite !Update_text by exact H. cbn. now rewrite Hc, Hw.
  - pose proof (len_nonneg (message r)).
    rewrite !Update_no_text by lia. cbn. now rewrite Hc.
Qed.

Lemma C7_clear_then_message_witness :
  content
    (fst (@Update plainTerminal
            (fst (@Update plainTerminal
                    {| content := "Bob: earlier"; ready := true;
                       viewport := SetContent (viewport_New 80 18) "Bob: earlier" |}
                    (KeyMsg "c")))
            (RemoteMessage {| name := "Alice: "; message := "hello" |})))
  = content
      (fst (@Update plainTerminal
              {| content := ""; ready := true; viewport := viewport_New 80 18 |}
              (RemoteMessage {| name := "Alice: "; message := "hello" |}))) /\
  content
    (fst (@Update plainTerminal
            (fst (@Update plainTerminal
                    {| content := "Bob: earlier"; ready := false;
                       viewport := viewport_zero |}
                    (KeyMsg "c")))
            (RemoteMessage {| name := "Alice: "; message := "hello" |})))
  = content
      (fst (@Update plainTerminal initialModel
              (RemoteMessage {| name := "Alice: "; message := "hello" |}))).
Proof.
  split.
  - apply (C7_clear_then_message plainTerminal
             {| content := "Bob: earlier"; ready := true;
                viewport := SetContent (viewport_New 80 18) "Bob: earlier" |}
             {| content := ""; ready := true; viewport := viewport_New 80 18 |}
             {| name := "Alice: "; message := "hello" |});
      reflexivity.
  - apply (C7_clear_then_message plainTerminal
             {| content := "Bob: earlier"; ready := false;
                viewport := viewport_zero |}
             initialModel {| name := "Alice: "; message := "hello" |});
      reflexivity.
Defined.

(** C10: a clear-request in the Ready state empties the transcript and
    the text the viewport shows, issues no command, and changes nothing
    else: the ready flag stays set and the viewport keeps its width,
    height, position and rendering mode. *)
Theorem C10_clear_keeps_geometry (T : Terminal) (m : model) :
  ready m = true ->
  snd (Update m (KeyMsg "c")) = CmdNil /\
  content (fst (Update m (KeyMsg "c"))) = "" /\
  shown (viewport (fst (Update m (KeyMsg "c")))) = "" /\
  ready (fst (Update m (KeyMsg "c"))) = true /\
  Width (viewport (fst (Update m (KeyMsg "c")))) = Width (viewport m) /\
  Height (viewport (fst (Update m (KeyMsg "c")))) = Height (viewport m) /\
  YPosition (viewport (fst (Update m (KeyMsg "c")))) = YPosition (viewport m) /\
  HighPerformanceRendering (viewport (fst (Update m (KeyMsg "c"))))
  = HighPerformanceRendering (viewport m).
Proof. intros Hr. rewrite Update_clear. cbn. now rewrite Hr. Qed.

Lemma C10_clear_keeps_geometry_witness :
  let m := {| content := "Bob: earlier"; ready := true;
              viewport :=
                {| Width := 80; Height := 18; YPosition := 4;
                   HighPerformanceRendering := false;
                   shown := "Bob: earlier" |} |} in
  snd (@Update plainTerminal m (KeyMsg "c")) = CmdNil /\
  content (fst (@Update plainTerminal m (KeyMsg "c"))) = "" /\
  shown (viewport (fst (@Update plainTerminal m (KeyMsg "c")))) = "" /\
  ready (fst (@Update plainTerminal m (KeyMsg "c"))) = true /\
  Width (viewport (fst (@Update plainTerminal m (KeyMsg "c")))) = 80 /\
  Height (viewport (fst (@Update plainTerminal m (KeyMsg "c")))) = 18 /\
  YPosition (viewport (fst (@Update plainTerminal m (KeyMsg "c")))) = 4 /\
  HighPerformanceRendering (viewport (fst (@Update plainTerminal m (KeyMsg "c"))))
  = false.
Proof.
  exact (C10_clear_keeps_geometry plainTerminal
           {| content := "Bob: earlier"; ready := true;
              viewport :=
                {| Width := 80; Height := 18; YPosition := 4;
                   HighPerformanceRendering := false;
                   shown := "Bob: earlier" |} |} eq_refl).
Defined.

Lemma int_wrap_small (z : Z) :
  - 2 ^ 63 <= z < 2 ^ 63 -> Go.int_wrap z = z.
Proof. intros H. unfold Go.int_wrap. rewrite Z.mod_small; lia. Qed.

(** C9, as the code has it: a width that is zero or negative is not
    replaced by 1.  The block is built with the word-wrap limit
    [width - (4 + len(identity))], which is negative, and with the
    hard-wrap limit [width] itself; the render loop divides by nothing
    and is defined for every such width. *)
Theorem C9_nonpositive_width_not_clamped
    (T : Terminal) (identity text : string) (width : Z) :
  width <= 0 ->
  - 2 ^ 62 <= width ->
  Go.len identity < 2 ^ 61 ->
  width - (4 + Go.len identity) < 0 /\
  formatBlock identity text width
  = wrap_String
      (Go.TrimLeft_space
         (indent_String
            (" " ++ wordwrap_String
                      (if 0 <? Go.len identity
                       then boldStyle_Render identity ++ text else text)
                      (width - (4 + Go.len identity))) 4)
       ++ String newline "") width.
Proof.
  intros Hw Hlo Hid. pose proof (len_nonneg identity). split; [lia|].
  unfold formatBlock, wordwrapLimit, wrapLimit, Go.int_sub, Go.int_add.
  rewrite (int_wrap_small (4 + Go.len identity)) by lia.
  rewrite int_wrap_small by lia. reflexivity.
Qed.

Lemma C9_nonpositive_width_not_clamped_witness :
  0 - (4 + Go.len "Bob: ") < 0 /\
  @formatBlock plainTerminal "Bob: " "hello" 0
  = @wrap_String plainTerminal
      (Go.TrimLeft_space
         (@indent_String plainTerminal
            (" " ++ @wordwrap_String plainTerminal
                      (if 0 <? Go.len "Bob: "
                       then @boldStyle_Render plainTerminal "Bob: " ++ "hello"
                       else "hello")
                      (0 - (4 + Go.len "Bob: "))) 4)
       ++ String newline "") 0.
Proof.
  apply (C9_nonpositive_width_not_clamped plainTerminal "Bob: " "hello" 0);
    vm_compute; congruence.
Defined.

(** C9 as stated fails: at width 0 the wrapping routines are handed the
    limits -4 and 0, at width 1 the limits -3 and 1, and a terminal
    whose hard wrap acts on a positive limit only gives different blocks
    for the two widths. *)
Lemma C9_width_zero_is_not_width_one :
  wordwrapLimit 0 "" = -4 /\ wordwrapLimit 1 "" = -3 /\
  wrapLimit 0 = 0 /\ wrapLimit 1 = 1 /\
  exists T : Terminal,
    @formatBlock T "" "hello" 0 <> @formatBlock T "" "hello" 1.
Proof.
  repeat split; try reflexivity.
  exists {| boldStyle_Render := fun s => s;
            wordwrap_String := fun s _ => s;
            indent_String := fun s _ => s;
            wrap_String :=
              fun s limit =>
                if limit <=? 0 then s else Go.take (Z.to_nat limit) s;
            headerView_Height := fun _ => 3;
            footerView_Height := fun _ => 3;
            viewport_Update := fun v _ => (v, CmdNil);
            viewport_Sync := fun _ => CmdNil |}.
  vm_compute. discriminate.
Qed.

(** ** More on the connection worker *)

Lemma map_Send_inj (a b : list remoteMessage) :
  map Send a = map Send b -> a = b.
Proof.
  revert b. induction a as [|x a IH]; intros [|y b] H;
    try discriminate; [reflexivity|].
  simpl in H. injection H as -> H. now rewrite (IH _ H).
Qed.

Lemma trace_inj (a b : list remoteMessage) :
  (map Send a ++ [Close])%list = (map Send b ++ [Close])%list -> a = b.
Proof. intros H. apply app_inv_tail in H. now apply map_Send_inj. Qed.

(** What a worker sends is what [tagged] says, for the framing of the
    stream. *)
Lemma handleConnection_tagged (conn : string) (msgs : list remoteMessage) :
  handleConnection conn = Some (map Send msgs ++ [Close])%list ->
  exists lines partial,
    conn = encode lines ++ partial /\
    forallb noNewline lines = true /\ noNewline partial = true /\
    msgs = tagged "" lines.
Proof.
  intros H. destruct (framing conn) as (lines & partial & Hc & Hl & Hp).
  exists lines, partial. repeat split; try assumption.
  rewrite Hc, (handleConnection_encode _ _ Hl Hp) in H.
  injection H as H. symmetry. now apply trace_inj.
Qed.

Lemma tagged_Forall (P : remoteMessage -> Prop) (lines : list string) :
  (forall name str,
      In str lines -> isAnnouncement str = false ->
      (name = "" \/ exists a, In a lines /\ isAnnouncement a = true
                              /\ name = labelSetBy a) ->
      P {| name := name; message := str |}) ->
  Forall P (tagged "" lines).
Proof.
  intros HP.
  assert (G : forall rest name,
             (forall str, In str rest -> In str lines) ->
             (name = "" \/ exists a, In a lines /\ isAnnouncement a = true
                                     /\ name = labelSetBy a) ->
             Forall P (tagged name rest)).
  { induction rest as [|str rest IH]; intros name Hin Hn; simpl.
    - constructor.
    - destruct (isAnnouncement str) eqn:Ea.
      + apply IH; [intros; apply Hin; now right|].
        right. exists str. split; [apply Hin; now left | now split].
      + constructor.
        * apply HP; [apply Hin; now left | exact Ea | exact Hn].
        * apply IH; [intros; apply Hin; now right | exact Hn]. }
  apply G; [trivial | now left].
Qed.

(** X1: on every byte stream the worker returns, never slices out of
    range, sends only messages and closes the connection exactly once,
    as its last action; iterations beyond the number of bytes of the
    stream change nothing. *)
Theorem worker_returns_and_closes_last (conn : string) :
  exists msgs,
    handleConnection conn = Some (map Send msgs ++ [Close])%list /\
    forall fuel,
      (String.length conn < fuel)%nat ->
      handleConnection_loop fuel conn ""
      = Some (map Send msgs ++ [Close])%list.
Proof.
  destruct (handleConnection_returns conn) as [msgs H].
  exists msgs. split; [exact H|]. intros fuel Hf.
  apply (handleConnection_loop_fuel (S (String.length conn))); [exact H | lia].
Qed.

(** X2: a worker never sends a text in which the marker occurs, and
    never a text with a line terminator in it: a line that sets the
    identity is not displayed, whatever surrounds the marker. *)
Theorem worker_never_sends_marker (conn : string) (msgs : list remoteMessage) :
  handleConnection conn = Some (map Send msgs ++ [Close])%list ->
  Forall (fun m => ~ Contains (message m) marker
                   /\ noNewline (message m) = true) msgs.
Proof.
  intros H.
  destruct (handleConnection_tagged _ _ H) as (lines & partial & _ & Hl & _ & ->).
  apply tagged_Forall. intros name str Hin Ha _. simpl. split.
  - apply Index_absent.
    rewrite isAnnouncement_Index, negb_false_iff in Ha. now apply Z.eqb_eq.
  - rewrite forallb_forall in Hl. now apply Hl.
Qed.

Lemma worker_never_sends_marker_witness :
  Forall (fun m => ~ Contains (message m) marker
                   /\ noNewline (message m) = true)
    [{| name := ""; message := "boot" |};
     {| name := "Ann: "; message := "ready" |}].
Proof.
  apply (worker_never_sends_marker
           (encode ["boot"; "log ::name:: Ann"; "ready"] ++ "::na")).
  reflexivity.
Defined.

(** X3: the label of every message a worker sends is either empty, when
    no announcement came before, or a name with no white space around it
    followed by ": ". *)
Theorem worker_label_shape (conn : string) (msgs : list remoteMessage) :
  handleConnection conn = Some (map Send msgs ++ [Close])%list ->
  Forall (fun m => name m = ""
                   \/ exists rest, name m = Go.TrimSpace rest ++ ": ") msgs.
Proof.
  intros H.
  destruct (handleConnection_tagged _ _ H) as (lines & partial & _ & _ & _ & ->).
  apply tagged_Forall. intros name str _ _ [->|(a & _ & Ha & ->)]; simpl.
  - now left.
  - right. rewrite isAnnouncement_Index, negb_true_iff, Z.eqb_neq in Ha.
    unfold labelSetBy.
    destruct (handleLine_announcement "" a Ha) as (pre & post & _ & _ & ->).
    now exists post.
Qed.

Lemma worker_label_shape_witness :
  Forall (fun m => name m = ""
                   \/ exists rest, name m = Go.TrimSpace rest ++ ": ")
    [{| name := ""; message := "boot" |};
     {| name := "Ann: "; message := "ready" |}].
Proof.
  apply (worker_label_shape
           (encode ["boot"; "log ::name:: Ann"; "ready"] ++ "::na")).
  reflexivity.
Defined.

(** ** White space around a name *)

Ltac bool_to_arith H :=
  repeat first
    [ rewrite andb_true_iff in H | rewrite orb_true_iff in H
    | rewrite N.eqb_eq in H | rewrite N.leb_le in H ].

Lemma list_ascii_append (a b : string) :
  list_ascii_of_string (a ++ b)
  = (list_ascii_of_string a ++ list_ascii_of_string b)%list.
Proof. induction a as [|x a IH]; simpl; [reflexivity | now rewrite IH]. Qed.

(** The first byte of a UTF-8 encoding, as opposed to the bytes that
    continue one. *)
Lemma isSpace1_lead (b : ascii) :
  Go.isSpace1 b = true -> (N_of_ascii b < 128)%N.
Proof.
  unfold Go.isSpace1. cbv zeta. generalize (N_of_ascii b). intros x H.
  bool_to_arith H. lia.
Qed.

Lemma isSpace2_lead (a b : ascii) :
  Go.isSpace2 a b = true ->
  (N_of_ascii a = 194 /\ 128 <= N_of_ascii b < 194)%N.
Proof.
  unfold Go.isSpace2. cbv zeta.
  generalize (N_of_ascii a), (N_of_ascii b). intros x y H.
  bool_to_arith H. lia.
Qed.

Lemma isSpace3_lead (a b c : ascii) :
  Go.isSpace3 a b c = true ->
  (225 <= N_of_ascii a /\ 128 <= N_of_ascii b < 194
   /\ 128 <= N_of_ascii c < 194)%N.
Proof.
  unfold Go.isSpace3. cbv zeta.
  generalize (N_of_ascii a), (N_of_ascii b), (N_of_ascii c). intros x y z H.
  bool_to_arith H. lia.
Qed.

Lemma WhiteSpace_lead (ws : string) :
  WhiteSpace ws ->
  match list_ascii_of_string ws with
  | [] => True
  | b :: _ => (N_of_ascii b < 128 \/ 194 <= N_of_ascii b)%N
  end.
Proof.
  destruct 1 as [|a s Ha _|a b s Hab _|a b c s Habc _]; simpl.
  - exact I.
  - left. now apply isSpace1_lead.
  - right. apply isSpace2_lead in Hab. lia.
  - right. apply isSpace3_lead in Habc. lia.
Qed.

Lemma lead_not_space2 (a b : ascii) :
  (N_of_ascii b < 128 \/ 194 <= N_of_ascii b)%N -> Go.isSpace2 a b = false.
Proof.
  intros H. destruct (Go.isSpace2 a b) eqn:E; [|reflexivity].
  apply isSpace2_lead in E. lia.
Qed.

Lemma lead_not_space3_mid (a b c : ascii) :
  (N_of_ascii b < 128 \/ 194 <= N_of_ascii b)%N -> Go.isSpace3 a b c = false.
Proof.
  intros H. destruct (Go.isSpace3 a b c) eqn:E; [|reflexivity].
  apply isSpace3_lead in E. lia.
Qed.

Lemma lead_not_space3_last (a b c : ascii) :
  (N_of_ascii c < 128 \/ 194 <= N_of_ascii c)%N -> Go.isSpace3 a b c = false.
Proof.
  intros H. destruct (Go.isSpace3 a b c) eqn:E; [|reflexivity].
  apply isSpace3_lead in E. lia.
Qed.

(** White space runes in front are removed whatever follows them. *)
Lemma trimLeftSpace_ws_front (ws : string) (l : list ascii) :
  WhiteSpace ws ->
  Go.trimLeftSpace (list_ascii_of_string ws ++ l) = Go.trimLeftSpace l.
Proof.
  unfold Go.trimLeftSpace.
  induction 1 as [|a s Ha _ IH|a b s Hab _ IH|a b c s Habc _ IH]; simpl.
  - reflexivity.
  - now rewrite Ha.
  - now rewrite (isSpace2_not1 _ _ Hab), Hab.
  - now rewrite (isSpace3_not1 _ _ _ Habc), (isSpace3_not2 _ _ _ Habc), Habc.
Qed.

(** White space runes at the end are removed whatever precedes them. *)
Lemma trimRightSpace_ws_back (ws : string) (l : list ascii) :
  WhiteSpace ws ->
  Go.trimRightSpace (l ++ list_ascii_of_string ws) = Go.trimRightSpace l.
Proof.
  unfold Go.trimRightSpace. intros H. f_equal. rewrite rev_app_distr.
  generalize (rev l). clear l.
  induction H as [|a s Ha _ IH|a b s Hab _ IH|a b c s Habc _ IH];
    intros l; simpl.
  - reflexivity.
  - rewrite <- app_assoc, IH. simpl. now rewrite Ha.
  - rewrite <- !app_assoc, IH. simpl.
    destruct (isSpace2_lead _ _ Hab) as [_ Hb].
    destruct (Go.isSpace1 b) eqn:E1;
      [apply isSpace1_lead in E1; lia|].
    now rewrite Hab.
  - rewrite <- !app_assoc, IH. simpl.
    destruct (isSpace3_lead _ _ _ Habc) as (Hx & Hb & Hc).
    destruct (Go.isSpace1 c) eqn:E1;
      [apply isSpace1_lead in E1; lia|].
    destruct (Go.isSpace2 b c) eqn:E2;
      [apply isSpace2_lead in E2; lia|].
    now rewrite Habc.
Qed.

(** White space appended to [n] does not change where the removal at
    the front of [n] stops. *)
Lemma trimLeftSpace_ws_back (ws : string) :
  WhiteSpace ws ->
  forall n : list ascii,
    Go.trimLeftSpace (n ++ list_ascii_of_string ws)
    = match Go.trimLeftSpace n with
      | [] => []
      | y => (y ++ list_ascii_of_string ws)%list
      end.
Proof.
  intros Hws. pose proof (WhiteSpace_lead ws Hws) as Hlead.
  pose proof (trimLeftSpace_WhiteSpace ws Hws) as Hall.
  unfold Go.trimLeftSpace in *.
  set (W := list_ascii_of_string ws) in *.
  assert (G : forall k n, (List.length n <= k)%nat ->
              Go.dropSpace Go.isSpace2 Go.isSpace3 (n ++ W)
              = match Go.dropSpace Go.isSpace2 Go.isSpace3 n with
                | [] => []
                | y => (y ++ W)%list
                end).
  { induction k as [|k IH]; intros n Hn.
    - destruct n; [exact Hall | simpl in Hn; lia].
    - destruct n as [|a n1]; [exact Hall|].
      simpl in Hn. simpl.
      destruct (Go.isSpace1 a) eqn:E1; [apply IH; lia|].
      destruct n1 as [|b n2]; simpl.
      + destruct W as [|b W2]; [reflexivity|].
        rewrite (lead_not_space2 a b Hlead).
        destruct W2 as [|c W3]; [reflexivity|].
        now rewrite (lead_not_space3_mid a b c Hlead).
      + simpl in Hn. destruct (Go.isSpace2 a b) eqn:E2; [apply IH; lia|].
        destruct n2 as [|c n3]; simpl.
        * destruct W as [|c W2]; [reflexivity|].
          now rewrite (lead_not_space3_last a b c Hlead).
        * simpl in Hn. destruct (Go.isSpace3 a b c) eqn:E3; [apply IH; lia|].
          reflexivity. }
  intros n. now apply (G (List.length n)).
Qed.

Lemma TrimSpace_ws_around (ws1 n ws2 : string) :
  WhiteSpace ws1 -> WhiteSpace ws2 ->
  Go.TrimSpace (ws1 ++ n ++ ws2) = Go.TrimSpace n.
Proof.
  intros H1 H2. unfold Go.TrimSpace. f_equal.
  rewrite !list_ascii_append, (trimLeftSpace_ws_front _ _ H1),
    (trimLeftSpace_ws_back _ H2).
  destruct (Go.trimLeftSpace (list_ascii_of_string n)) as [|y l] eqn:E.
  - reflexivity.
  - now rewrite (trimRightSpace_ws_back _ _ H2).
Qed.

Lemma handleLine_marker_first (name rest : string) :
  handleLine name (marker ++ rest) = Some (Go.TrimSpace rest ++ ": ", None).
Proof.
  assert (Hi : Go.Index (marker ++ rest) marker = 0)
    by (rewrite Index_unfold, prefix_append; reflexivity).
  unfold handleLine. rewrite Hi. simpl negb. cbv iota.
  change (0 + 8) with (Go.len marker). now rewrite slice_back.
Qed.

(** X4: white space before and after the name of an announcement is
    dropped: the line sets the same identity as the line with the bare
    name.  A carriage return before the line terminator is white space,
    so senders that end lines with CR LF announce the same name. *)
Theorem announcement_ignores_surrounding_space (name ws1 n ws2 : string) :
  WhiteSpace ws1 -> WhiteSpace ws2 ->
  handleLine name (marker ++ ws1 ++ n ++ ws2) = handleLine name (marker ++ n).
Proof.
  intros H1 H2.
  now rewrite !handleLine_marker_first, (TrimSpace_ws_around _ _ _ H1 H2).
Qed.

Lemma announcement_ignores_surrounding_space_witness :
  handleLine "" (marker ++ " " ++ "Bob Ray" ++ String "013"%char "")
  = handleLine "" (marker ++ "Bob Ray") /\
  handleLine "" (marker ++ "Bob Ray") = Some ("Bob Ray: ", None).
Proof.
  split; [|reflexivity].
  apply (announcement_ignores_surrounding_space
           "" " " "Bob Ray" (String "013"%char "")).
  - apply WhiteSpace_1; [reflexivity | apply WhiteSpace_nil].
  - apply WhiteSpace_1; [reflexivity | apply WhiteSpace_nil].
Defined.

(** ** The sender *)

Lemma stream_append (a b : list string) :
  stream (a ++ b)%list = stream a ++ stream b.
Proof.
  induction a as [|x a IH]; simpl; [reflexivity|].
  now rewrite IH, append_assoc.
Qed.

Lemma forward_end (fuel : nat) : stream (forward fuel "") = "".
Proof. induction fuel as [|fuel IH]; simpl; [reflexivity | exact IH]. Qed.

Lemma noNewline_append (a b : string) :
  noNewline (a ++ b) = noNewline a && noNewline b.
Proof.
  induction a as [|x a IH]; simpl; [reflexivity|].
  now rewrite IH, andb_assoc.
Qed.

Lemma forward_encode (k : nat) (lines : list string) (partial : string) :
  forallb noNewline lines = true ->
  noNewline partial = true ->
  stream (forward k (encode lines ++ partial))
  = encode (firstn k lines)
    ++ (if (List.length lines <? k)%nat then partial else "").
Proof.
  intros Hl Hp. revert lines Hl.
  induction k as [|k IH]; intros lines Hl.
  - reflexivity.
  - destruct lines as [|l ls].
    + simpl encode. simpl append. simpl forward.
      rewrite (ReadBytes_partial _ Hp). simpl stream.
      now rewrite forward_end, append_nil_r.
    + simpl in Hl. apply andb_true_iff in Hl as [Hn Hls].
      rewrite encode_append. simpl forward.
      rewrite (ReadBytes_line _ _ Hn). simpl stream.
      rewrite (IH ls Hls). simpl firstn. simpl List.length.
      change (S (List.length ls) <? S k)%nat with (List.length ls <? k)%nat.
      rewrite encode_append, append_assoc. reflexivity.
Qed.

Lemma forward_all (fuel : nat) (lines : list string) :
  forallb noNewline lines = true ->
  (List.length lines <= fuel)%nat ->
  stream (forward fuel (encode lines)) = encode lines.
Proof.
  intros Hl Hf. rewrite <- (append_nil_r (encode lines)) at 1.
  rewrite (forward_encode fuel lines "" Hl eq_refl), firstn_all2 by exact Hf.
  destruct (List.length lines <? fuel)%nat; apply append_nil_r.
Qed.

(** X5: the sender forwards its input verbatim and in order, a line per
    iteration.  After [k] iterations the connection has received exactly
    the first [k] lines typed, each with its terminator, and, once the
    input has ended, the unterminated bytes that were left; nothing is
    added, dropped or reordered. *)
Theorem sender_forwards_verbatim
    (k : nat) (lines : list string) (partial : string) :
  forallb noNewline lines = true ->
  noNewline partial = true ->
  stream (forward k (encode lines ++ partial))
  = encode (firstn k lines)
    ++ (if (List.length lines <? k)%nat then partial else "").
Proof. apply forward_encode. Qed.

Lemma sender_forwards_verbatim_witness :
  stream (forward 2 (encode ["one"; "two"; "three"] ++ "fo"))
  = encode ["one"; "two"] /\
  stream (forward 5 (encode ["one"; "two"; "three"] ++ "fo"))
  = encode (firstn 5 ["one"; "two"; "three"])
    ++ (if (List.length ["one"; "two"; "three"] <? 5)%nat then "fo" else "").
Proof.
  split; [reflexivity|].
  apply (sender_forwards_verbatim 5 ["one"; "two"; "three"] "fo");
    reflexivity.
Defined.

Lemma tagged_all_text (lines : list string) (name : string) :
  forallb isText lines = true ->
  tagged name lines
  = map (fun str => {| name := name; message := str |}) lines.
Proof.
  revert name. induction lines as [|str lines IH]; simpl; intros name H;
    [reflexivity|].
  apply andb_true_iff in H as [Hs Hl]. unfold isText in Hs.
  apply negb_true_iff in Hs. now rewrite Hs, (IH _ Hl).
Qed.

Lemma isAnnouncement_marker_first (rest : string) :
  isAnnouncement (marker ++ rest) = true.
Proof. unfold isAnnouncement. now rewrite handleLine_marker_first. Qed.

Lemma labelSetBy_marker_first (rest : string) :
  labelSetBy (marker ++ rest) = Go.TrimSpace rest ++ ": ".
Proof. unfold labelSetBy. now rewrite handleLine_marker_first. Qed.

Lemma handleConnection_lines (lines : list string) :
  forallb noNewline lines = true ->
  handleConnection (encode lines)
  = Some (map Send (tagged "" lines) ++ [Close])%list.
Proof.
  intros Hl. rewrite <- (append_nil_r (encode lines)).
  now apply handleConnection_encode.
Qed.

(** X6: sender and listener together.  A sender started with the
    command line [args], whose first argument has no line terminator in
    it, that forwards the lines [lines], in none of which the marker
    occurs, makes the listener's worker send exactly these lines, in
    order, each under the label made of the trimmed first argument and
    ": ", or under the empty label when the sender was given no
    argument. *)
Theorem sender_lines_reach_listener
    (fuel : nat) (args lines : list string) :
  noNewline (nth 1 args "") = true ->
  forallb noNewline lines = true ->
  forallb noMarker lines = true ->
  (List.length lines <= fuel)%nat ->
  handleConnection (stream (client fuel args (encode lines)))
  = Some (map Send
            (map (fun str => {| name := senderLabel args; message := str |})
                 lines)
          ++ [Close])%list.
Proof.
  intros Ha Hl Ht Hf. rewrite <- forallb_isText_noMarker in Ht. unfold client.
  rewrite stream_append, (forward_all fuel lines Hl Hf).
  destruct args as [|prog [|arg args]].
  - simpl stream. simpl append.
    now rewrite (handleConnection_lines lines Hl), (tagged_all_text lines "" Ht).
  - simpl stream. simpl append.
    now rewrite (handleConnection_lines lines Hl), (tagged_all_text lines "" Ht).
  - simpl nth in Ha.
    replace (stream (announce (prog :: arg :: args)) ++ encode lines)
      with (encode ((marker ++ arg) :: lines)).
    + rewrite handleConnection_lines.
      * cbn [tagged].
        rewrite isAnnouncement_marker_first, labelSetBy_marker_first.
        now rewrite (tagged_all_text lines _ Ht).
      * cbn [forallb]. rewrite noNewline_append, Ha, Hl. reflexivity.
    + cbn [announce stream fold_right encode].
      rewrite append_nil_r, !append_assoc. reflexivity.
Qed.

Lemma sender_lines_reach_listener_witness :
  handleConnection
    (stream (client 3 ["debug-client"; " build "] (encode ["start"; ""; "done"])))
  = Some (map Send
            (map (fun str =>
                    {| name := senderLabel ["debug-client"; " build "];
                       message := str |})
                 ["start"; ""; "done"])
          ++ [Close])%list /\
  senderLabel ["debug-client"; " build "] = "build: ".
Proof.
  split; [|reflexivity].
  apply (sender_lines_reach_listener
           3 ["debug-client"; " build "] ["start"; ""; "done"]);
    reflexivity.
Defined.

(** ** More on the render loop *)

Section UpdateFacts.

Context {T : Terminal}.

Lemma delegate_content (m : model) (msg : Msg) (cmds : list Cmd) :
  content (fst (delegate m msg cmds)) = content m.
Proof. unfold delegate. now destruct (viewport_Update (viewport m) msg). Qed.

Lemma delegate_ready (m : model) (msg : Msg) (cmds : list Cmd) :
  ready (fst (delegate m msg cmds)) = ready m.
Proof. unfold delegate. now destruct (viewport_Update (viewport m) msg). Qed.

Lemma delegate_Batch (m : model) (msg : Msg) (cmds : list Cmd) :
  exists l, snd (delegate m msg cmds) = Batch l.
Proof.
  unfold delegate. destruct (viewport_Update (viewport m) msg) as [v c].
  now exists (cmds ++ [c])%list.
Qed.

Lemma Update_content_frame (m : model) (msg : Msg) :
  msg <> KeyMsg "c" ->
  (forall r, msg = RemoteMessage r -> message r = "") ->
  content (fst (Update m msg)) = content m.
Proof.
  intros Hc Hr. destruct msg as [key|width height|r|]; unfold Update.
  - destruct (String.eqb key "ctrl+c" || String.eqb key "q"); [reflexivity|].
    destruct (String.eqb_spec key "c") as [->|_]; [congruence|].
    apply delegate_content.
  - rewrite delegate_content. now destruct (negb (ready m)).
  - rewrite (Hr r eq_refl). reflexivity.
  - apply delegate_content.
Qed.

Lemma Update_remote_Width (m : model) (r : remoteMessage) :
  Width (viewport (fst (Update m (RemoteMessage r)))) = Width (viewport m).
Proof. unfold Update. now destruct (0 <? Go.len (message r)). Qed.

Lemma Update_remote_content (m : model) (r : remoteMessage) :
  content (fst (Update m (RemoteMessage r)))
  = content m
    ++ (if 0 <? Go.len (message r)
        then formatBlock (name r) (message r) (Width (viewport m))
        else "").
Proof.
  unfold Update. destruct (0 <? Go.len (message r)); cbn [fst content].
  - reflexivity.
  - now rewrite append_nil_r.
Qed.

Lemma UpdateAll_remote (rs : list remoteMessage) (m : model) :
  content (UpdateAll m (map RemoteMessage rs))
  = content m
    ++ stream
         (map (fun r => formatBlock (name r) (message r) (Width (viewport m)))
              (filter (fun r => 0 <? Go.len (message r)) rs)).
Proof.
  revert m. induction rs as [|r rs IH]; intros m.
  - cbn. now rewrite append_nil_r.
  - cbn [map UpdateAll fold_left].
    change (fold_left (fun m0 msg => fst (Update m0 msg)) (map RemoteMessage rs)
              (fst (Update m (RemoteMessage r))))
      with (UpdateAll (fst (Update m (RemoteMessage r))) (map RemoteMessage rs)).
    rewrite IH, Update_remote_Width, Update_remote_content, append_assoc.
    cbn [filter]. destruct (0 <? Go.len (message r)); reflexivity.
Qed.

End UpdateFacts.

(** X7: the transcript is touched by two messages only, the key [c]
    and a message from a connection with a non-empty text: every other
    key, every change of the window size and every other message leaves
    it as it is (a resize does not re-wrap what was formatted). *)
Theorem transcript_kept_by_other_messages
    (T : Terminal) (m : model) (msg : Msg) :
  msg <> KeyMsg "c" ->
  (forall r, msg = RemoteMessage r -> message r = "") ->
  content (fst (Update m msg)) = content m.
Proof. apply Update_content_frame. Qed.

Lemma transcript_kept_by_other_messages_witness :
  content
    (fst (@Update plainTerminal
            {| content := "Bob: earlier"; ready := true;
               viewport := SetContent (viewport_New 80 18) "Bob: earlier" |}
            (WindowSizeMsg 40 12)))
  = "Bob: earlier".
Proof.
  apply (transcript_kept_by_other_messages plainTerminal
           {| content := "Bob: earlier"; ready := true;
              viewport := SetContent (viewport_New 80 18) "Bob: earlier" |}
           (WindowSizeMsg 40 12)).
  - discriminate.
  - intros r H. discriminate H.
Defined.

(** X8: the transcript is append-only: whatever the message, except
    the key [c], the transcript before it is a prefix of the transcript
    after it. *)
Theorem transcript_append_only (T : Terminal) (m : model) (msg : Msg) :
  msg <> KeyMsg "c" ->
  exists block, content (fst (Update m msg)) = content m ++ block.
Proof.
  intros Hc. destruct msg as [key|width height|r|].
  - exists "". rewrite append_nil_r.
    apply Update_content_frame; [exact Hc | discriminate].
  - exists "". rewrite append_nil_r.
    apply Update_content_frame; [exact Hc | discriminate].
  - eexists. apply Update_remote_content.
  - exists "". rewrite append_nil_r.
    apply Update_content_frame; [exact Hc | discriminate].
Qed.

Lemma transcript_append_only_witness :
  exists block,
    content
      (fst (@Update plainTerminal
              {| content := "Bob: earlier"; ready := true;
                 viewport := SetContent (viewport_New 80 18) "Bob: earlier" |}
              (RemoteMessage {| name := "Ann: "; message := "later" |})))
    = "Bob: earlier" ++ block.
Proof.
  apply (transcript_append_only plainTerminal
           {| content := "Bob: earlier"; ready := true;
              viewport := SetContent (viewport_New 80 18) "Bob: earlier" |}
           (RemoteMessage {| name := "Ann: "; message := "later" |})).
  discriminate.
Defined.

(** X9: the render loop becomes ready with the first window size it is
    told and stays ready: after a window size message the ready flag is
    set, and no other message changes it. *)
Theorem ready_set_by_window_size_only (T : Terminal) (m : model) (msg : Msg) :
  ready (fst (Update m msg))
  = match msg with
    | WindowSizeMsg _ _ => true
    | _ => ready m
    end.
Proof.
  destruct msg as [key|width height|r|]; unfold Update.
  - destruct (String.eqb key "ctrl+c" || String.eqb key "q"); [reflexivity|].
    destruct (String.eqb key "c"); [reflexivity | apply delegate_ready].
  - rewrite delegate_ready. now destruct (ready m).
  - now destruct (0 <? Go.len (message r)).
  - apply delegate_ready.
Qed.

(** X10: [Update] answers with the quit command for the keys [q] and
    [ctrl+c] and for nothing else, and quitting leaves the model as it
    is. *)
Theorem quit_on_q_and_ctrl_c_only (T : Terminal) (m : model) (msg : Msg) :
  (snd (Update m msg) = Quit <-> msg = KeyMsg "ctrl+c" \/ msg = KeyMsg "q") /\
  (snd (Update m msg) = Quit -> fst (Update m msg) = m).
Proof.
  assert (D : forall m' cmds, snd (delegate m' msg cmds) <> Quit).
  { intros m' cmds H. destruct (delegate_Batch m' msg cmds) as [l Hl].
    congruence. }
  destruct msg as [key|width height|r|]; unfold Update.
  - destruct (String.eqb_spec key "ctrl+c") as [->|N1].
    { split; [split; [now left | reflexivity] | reflexivity]. }
    destruct (String.eqb_spec key "q") as [->|N2].
    { split; [split; [now right | reflexivity] | reflexivity]. }
    cbn [orb].
    destruct (String.eqb key "c").
    + split; [split|]; cbn; try discriminate.
      intros [H|H]; congruence.
    + split; [split|]; intros H; try (now apply D in H).
      destruct H as [H|H]; congruence.
  - split; [split|]; intros H; try (now apply D in H).
    destruct H as [H|H]; discriminate.
  - destruct (0 <? Go.len (message r)); cbn; (split; [split|]);
      try discriminate; intros [H|H]; discriminate.
  - split; [split|]; intros H; try (now apply D in H).
    destruct H as [H|H]; discriminate.
Qed.

(** X11: messages compose.  After the messages [rs] from connections,
    delivered in this order, the transcript is the transcript before
    them followed by one block per message with a non-empty text, in
    order, each formatted for the width the viewport had at the start;
    the messages with an empty text leave no trace. *)
Theorem transcript_after_messages
    (T : Terminal) (m : model) (rs : list remoteMessage) :
  content (UpdateAll m (map RemoteMessage rs))
  = content m
    ++ stream
         (map (fun r => formatBlock (name r) (message r) (Width (viewport m)))
              (filter (fun r => 0 <? Go.len (message r)) rs)).
Proof. apply UpdateAll_remote. Qed.

(** X12: from the sender to the transcript.  For a sender whose first
    argument has no line terminator in it, the lines it forwards, in
    none of which the marker occurs, appear in the listener's
    transcript as one block per non-empty line, in the order typed, each
    formatted under the sender's label; empty lines and the
    announcement itself add nothing. *)
Theorem sender_lines_in_transcript
    (T : Terminal) (m : model) (fuel : nat) (args lines : list string)
    (msgs : list remoteMessage) :
  noNewline (nth 1 args "") = true ->
  forallb noNewline lines = true ->
  forallb noMarker lines = true ->
  (List.length lines <= fuel)%nat ->
  handleConnection (stream (client fuel args (encode lines)))
  = Some (map Send msgs ++ [Close])%list ->
  content (UpdateAll m (map RemoteMessage msgs))
  = content m
    ++ stream
         (map (fun str => formatBlock (senderLabel args) str (Width (viewport m)))
              (filter (fun str => 0 <? Go.len str) lines)).
Proof.
  intros Ha Hl Ht Hf H. rewrite <- forallb_isText_noMarker in Ht.
  unfold client in H.
  rewrite stream_append, (forward_all fuel lines Hl Hf) in H.
  assert (E : msgs
              = map (fun str => {| name := senderLabel args; message := str |})
                    lines).
  { destruct args as [|prog [|arg args]].
    - cbn [announce stream fold_right append] in H.
      rewrite (handleConnection_lines lines Hl), (tagged_all_text lines "" Ht) in H.
      injection H as H. symmetry. exact (trace_inj _ _ H).
    - cbn [announce stream fold_right append] in H.
      rewrite (handleConnection_lines lines Hl), (tagged_all_text lines "" Ht) in H.
      injection H as H. symmetry. exact (trace_inj _ _ H).
    - cbn [nth] in Ha.
      replace (stream (announce (prog :: arg :: args)) ++ encode lines)
        with (encode ((marker ++ arg) :: lines)) in H
        by (cbn [announce stream fold_right encode];
            rewrite append_nil_r, !append_assoc; reflexivity).
      rewrite handleConnection_lines in H
        by (cbn [forallb]; rewrite noNewline_append, Ha, Hl; reflexivity).
      cbn [tagged] in H.
      rewrite isAnnouncement_marker_first, labelSetBy_marker_first,
        (tagged_all_text lines _ Ht) in H.
      injection H as H. symmetry. exact (trace_inj _ _ H). }
  subst msgs. rewrite UpdateAll_remote. f_equal. f_equal.
  clear. induction lines as [|str lines IH]; [reflexivity|].
  cbn [map filter message name].
  destruct (0 <? Go.len str); cbn [map]; now rewrite IH.
Qed.

Lemma sender_lines_in_transcript_witness :
  content
    (@UpdateAll plainTerminal
       {| content := ""; ready := true; viewport := viewport_New 80 18 |}
       (map RemoteMessage
          [{| name := "build: "; message := "start" |};
           {| name := "build: "; message := "" |};
           {| name := "build: "; message := "done" |}]))
  = content {| content := ""; ready := true; viewport := viewport_New 80 18 |}
    ++ stream
         (map (fun str =>
                 @formatBlock plainTerminal
                   (senderLabel ["debug-client"; " build "]) str
                   (Width
                      (viewport
                         {| content := ""; ready := true;
                            viewport := viewport_New 80 18 |})))
              (filter (fun str => 0 <? Go.len str) ["start"; ""; "done"])).
Proof.
  apply (sender_lines_in_transcript plainTerminal
           {| content := ""; ready := true; viewport := viewport_New 80 18 |}
           3 ["debug-client"; " build "] ["start"; ""; "done"]);
    reflexivity.
Defined.

(** ** Header, footer and view *)

Lemma max_Zmax (a b : Z) : max a b = Z.max a b.
Proof. unfold max. destruct (Z.gtb_spec a b); lia. Qed.

Lemma len_copies (n : nat) (s : string) :
  Go.len (GoRepeat.copies n s) = Z.of_nat n * Go.len s.
Proof.
  induction n as [|n IH]; [reflexivity|].
  cbn [GoRepeat.copies]. rewrite len_append, IH. lia.
Qed.

(** The rule drawn beside an element [w] columns wide in a viewport
    [width] columns wide. *)
Lemma rule_line (width w : Z) :
  - 2 ^ 31 <= width <= 2 ^ 31 ->
  0 <= w <= 2 ^ 31 ->
  exists line,
    GoRepeat.Repeat rule (max 0 (Go.int_sub width w)) = Some line /\
    Go.len line = 3 * Z.max 0 (width - w) /\
    (width <= w -> line = "").
Proof.
  intros Hwidth Hw. unfold Go.int_sub. rewrite int_wrap_small by lia.
  rewrite max_Zmax. set (count := Z.max 0 (width - w)).
  assert (Hc : 0 <= count <= 2 ^ 32) by lia.
  unfold GoRepeat.Repeat.
  destruct (Z.ltb_spec count 0) as [|_]; [lia|].
  change (Go.len rule) with 3.
  destruct (Z.ltb_spec (2 ^ 63 - 1) (3 * count)) as [|_]; [lia|].
  eexists. split; [reflexivity|]. split.
  - rewrite len_copies. change (Go.len rule) with 3. lia.
  - intros Hle. replace count with 0 by lia. reflexivity.
Qed.

(** X13: header and footer never make [strings.Repeat] panic on a
    terminal of any 32-bit width, negative widths included: the rule
    beside the title, or beside the scroll indicator, has one rune (three
    bytes) per column left over, and is empty when the viewport is no
    wider than the element, where the count handed to [Repeat] would be
    negative without [max]. *)
Theorem header_and_footer_rules (C : Chrome) (m : model) :
  - 2 ^ 31 <= Width (viewport m) <= 2 ^ 31 ->
  0 <= lipgloss_Width title <= 2 ^ 31 ->
  0 <= lipgloss_Width (info (viewport m)) <= 2 ^ 31 ->
  (exists line,
      headerView m = Some (JoinHorizontal title line) /\
      Go.len line
      = 3 * Z.max 0 (Width (viewport m) - lipgloss_Width title) /\
      (Width (viewport m) <= lipgloss_Width title -> line = "")) /\
  (exists line,
      footerView m = Some (JoinHorizontal line (info (viewport m))) /\
      Go.len line
      = 3 * Z.max 0 (Width (viewport m) - lipgloss_Width (info (viewport m))) /\
      (Width (viewport m) <= lipgloss_Width (info (viewport m)) -> line = "")).
Proof.
  intros Hw Ht Hi. split.
  - destruct (rule_line _ _ Hw Ht) as (line & Hr & Hlen & Hempty).
    exists line. unfold headerView. now rewrite Hr.
  - destruct (rule_line _ _ Hw Hi) as (line & Hr & Hlen & Hempty).
    exists line. unfold footerView. now rewrite Hr.
Qed.

Lemma header_and_footer_rules_witness :
  let m := {| content := ""; ready := true; viewport := viewport_New 10 18 |} in
  (exists line,
      @headerView plainChrome m
      = Some (@JoinHorizontal plainChrome (@title plainChrome) line) /\
      Go.len line
      = 3 * Z.max 0 (Width (viewport m)
                     - @lipgloss_Width plainChrome (@title plainChrome)) /\
      (Width (viewport m) <= @lipgloss_Width plainChrome (@title plainChrome) ->
       line = "")) /\
  (exists line,
      @footerView plainChrome m
      = Some (@JoinHorizontal plainChrome line (@info plainChrome (viewport m))) /\
      Go.len line
      = 3 * Z.max 0 (Width (viewport m)
                     - @lipgloss_Width plainChrome
                         (@info plainChrome (viewport m))) /\
      (Width (viewport m)
       <= @lipgloss_Width plainChrome (@info plainChrome (viewport m)) ->
       line = "")).
Proof.
  apply (header_and_footer_rules plainChrome
           {| content := ""; ready := true; viewport := viewport_New 10 18 |});
    split; vm_compute; congruence.
Defined.

Lemma countByte_append (c : ascii) (a b : string) :
  countByte c (a ++ b) = (countByte c a + countByte c b)%nat.
Proof.
  induction a as [|x a IH]; [reflexivity|].
  cbn [append countByte]. rewrite IH. lia.
Qed.

(** X14: the placeholder is what [View] answers exactly as long as the
    render loop is not ready: once the window size is known the view is
    header, viewport and footer on separate lines, which is never the
    placeholder, whatever the three of them render. *)
Theorem placeholder_until_ready (C : Chrome) (m : model) :
  View m = Some (String newline "  Initializing...") <-> ready m = false.
Proof.
  unfold View. destruct (ready m); cbn [negb]; split; try reflexivity;
    try discriminate.
  intros H. exfalso.
  destruct (headerView m) as [header|]; [|discriminate].
  destruct (footerView m) as [footer|]; [|discriminate].
  injection H as H. apply (f_equal (countByte newline)) in H.
  assert (Hp : countByte newline (String newline "  Initializing...") = 1%nat)
    by reflexivity.
  assert (Hs : forall s, countByte newline (String newline s)
                         = S (countByte newline s)) by reflexivity.
  rewrite Hp, countByte_append, Hs, countByte_append, Hs in H. lia.
Qed.
